(** * loc_by_language: lines of code by language

    A shallow embedding of [src/loc_by_language.py] and the properties of
    its classifier, line counter, lister, aggregator and reporter.

    Conventions of the embedding.
    - A Python [str] is a [string]: the sequence of bytes of its UTF-8
      encoding ([surrogateescape] makes the decoding of a listing entry
      total and injective, so nothing is lost).  [str.lower] changes the
      ASCII capitals and the Kelvin sign, whose lower case is the ASCII
      letter [k]; the other characters, whose lower case is not ASCII and
      so is in no table of the program, are left as they are.
    - A Python [int] is a [Z].
    - A [pathlib.Path] is its anchor (absolute or not) and its list of
      components; [suffix] is the one of [pathlib] up to Python 3.13.
    - The command line is taken as parsed: the embedding of [main] starts
      after [parser.parse_args()].
    - What the operating system answers (file existence, file contents,
      symbolic-link resolution, the exit status and output of a subprocess,
      the directory tree) is a record of oracles, [World].  Each call that
      can raise answers with a [result]: [Path.resolve] (a symbolic-link
      loop), [Path.exists] and [Path.is_file] (every [OSError] that they do
      not take for an absent file, such as a name that is too long), the
      opening of a file.  The answers are independent fields, so a file
      that is listed and then vanishes, or that passes a check and then
      cannot be opened, is a [World] like any other.
    - [len] and the padding of a format count code points, [Str.chars];
      indices into a string count bytes, which is the same for the one use
      of them, the place of an ASCII dot.
    - An exception is a value of [exn]; code that can raise returns a
      [result]. *)

From Equations Require Import Equations.
From stdpp Require Import gmap strings list sorting.
From Stdlib Require Import ZArith Lia DecimalString.
From Stdlib.Strings Require Import Ascii String Byte.

Local Open Scope string_scope.
Local Open Scope Z_scope.

(** ** Exceptions *)

Inductive exn : Type :=
| KeyError (key : string)
| ValueError (msg : string)
| OSError (msg : string)
| RuntimeError (msg : string)
| RecursionError.

Inductive result (A : Type) : Type :=
| Ok (a : A)
| Raise (e : exn).
Arguments Ok {A} a.
Arguments Raise {A} e.

#[global] Instance result_ret : MRet result := λ A a, Ok a.

#[global] Instance result_bind : MBind result := λ A B k r,
  match r with
  | Ok a => k a
  | Raise e => Raise e
  end.

(** ** Strings *)

Module Str.

Definition lower_ascii (c : ascii) : ascii :=
  let n := nat_of_ascii c in
  if ((65 <=? n)%nat && (n <=? 90)%nat)%bool then ascii_of_nat (n + 32) else c.

(** [str.lower]; the bytes 226, 132, 170 are the Kelvin sign. *)
Fixpoint lower (s : string) : string :=
  match s with
  | EmptyString => EmptyString
  | String "226" (String "132" (String "170" s')) => String "k" (lower s')
  | String c s' => String (lower_ascii c) (lower s')
  end.

(** [sep.join(parts)] *)
Fixpoint join (sep : string) (parts : list string) : string :=
  match parts with
  | [] => ""
  | [p] => p
  | p :: ps => p ++ sep ++ join sep ps
  end.

(** [s.rfind(c)]: the index of the last occurrence of [c], or [-1]. *)
Fixpoint rfind (c : ascii) (s : string) : Z :=
  match s with
  | EmptyString => -1
  | String d s' =>
      let r := rfind c s' in
      if 0 <=? r then r + 1
      else if Ascii.eqb d c then 0 else -1
  end.

(** [s[i:]] for [0 <= i] *)
Definition slice_from (i : Z) (s : string) : string :=
  String.substring (Z.to_nat i) (String.length s - Z.to_nat i)%nat s.

Definition len (s : string) : Z := Z.of_nat (String.length s).

(** The bytes that continue a character of UTF-8 that starts with the byte
    [c], when [c] and the bytes after it start a well-formed character of
    two, three or four bytes; [0] for an ASCII byte and for a byte that
    starts no well-formed character. *)
Definition between (lo hi : nat) (c : ascii) : bool :=
  ((lo <=? nat_of_ascii c)%nat && (nat_of_ascii c <=? hi)%nat)%bool.

Definition continuation_bytes (c : ascii) (s : string) : nat :=
  let n := nat_of_ascii c in
  if (n <? 194)%nat then 0%nat
  else if (n <=? 223)%nat then
    match s with
    | String c1 _ => if between 128 191 c1 then 1%nat else 0%nat
    | _ => 0%nat
    end
  else if (n <=? 239)%nat then
    match s with
    | String c1 (String c2 _) =>
        if (between (if (n =? 224)%nat then 160 else 128)
                    (if (n =? 237)%nat then 159 else 191) c1
            && between 128 191 c2)%bool
        then 2%nat else 0%nat
    | _ => 0%nat
    end
  else if (n <=? 244)%nat then
    match s with
    | String c1 (String c2 (String c3 _)) =>
        if (between (if (n =? 240)%nat then 144 else 128)
                    (if (n =? 244)%nat then 143 else 191) c1
            && between 128 191 c2 && between 128 191 c3)%bool
        then 3%nat else 0%nat
    | _ => 0%nat
    end
  else 0%nat.

(** The code points of the string that [skip] bytes of a character already
    begun are followed by. *)
Fixpoint chars_after (skip : nat) (s : string) : nat :=
  match s with
  | EmptyString => 0%nat
  | String c s' =>
      match skip with
      | S skip' => chars_after skip' s'
      | O => S (chars_after (continuation_bytes c s') s')
      end
  end.

(** [len(s)]: the code points of the string.  A well-formed character of
    UTF-8 is one code point, and so is every other byte, which
    [surrogateescape] has decoded to a code point of its own. *)
Definition chars (s : string) : Z := Z.of_nat (chars_after 0 s).

(** Does the string contain the character? *)
Fixpoint contains (c : ascii) (s : string) : bool :=
  match s with
  | EmptyString => false
  | String d s' => Ascii.eqb d c || contains c s'
  end.

(** [s.split(sep)] for a one-character separator. *)
Fixpoint split (sep : ascii) (s : string) : list string :=
  match s with
  | EmptyString => [""]
  | String c s' =>
      if Ascii.eqb c sep then "" :: split sep s'
      else match split sep s' with
           | [] => [String c ""]
           | piece :: pieces => String c piece :: pieces
           end
  end.

End Str.

(** ** Paths ([pathlib.PurePosixPath]) *)

Record Path : Type := mkPath {
  absolute : bool;
  parts : list string
}.

#[global] Instance Path_eq_dec : EqDecision Path.
Proof. solve_decision. Defined.

Module PurePath.

(** [path.name]: the last component, [""] when there is none. *)
Definition name (p : Path) : string := List.last (parts p) "".

(** [path.suffix]: [name[i:]] for [i = name.rfind('.')] when
    [0 < i < len(name) - 1], else [""].  The index and the length are in
    bytes here: the dot is an ASCII byte and is never inside a character, so
    it is first, or last, in bytes exactly when it is so in code points. *)
Definition suffix (p : Path) : string :=
  let nm := name p in
  let i := Str.rfind "." nm in
  if ((0 <? i) && (i <? Str.len nm - 1))%bool then Str.slice_from i nm else "".

(** [path.as_posix()], which on POSIX is [str(path)]. *)
Definition as_posix (p : Path) : string :=
  if absolute p then "/" ++ Str.join "/" (parts p)
  else match parts p with
       | [] => "."
       | _ => Str.join "/" (parts p)
       end.

(** [a / b] *)
Definition truediv (a b : Path) : Path :=
  if absolute b then b else mkPath (absolute a) (parts a ++ parts b).

(** [a / name] for one component *)
Definition child (a : Path) (nm : string) : Path :=
  mkPath (absolute a) (parts a ++ [nm]).

End PurePath.

(** ** The tables *)

Definition EXTENSION_MAP : gmap string string :=
  list_to_map [
    (".py", "Python"); (".pyx", "Cython"); (".pxd", "Cython"); (".pxi", "Cython");
    (".c", "C"); (".h", "C++"); (".hpp", "C++"); (".hh", "C++"); (".hxx", "C++");
    (".cpp", "C++"); (".cc", "C++"); (".cxx", "C++");
    (".f90", "Fortran"); (".f95", "Fortran"); (".f03", "Fortran"); (".f", "Fortran");
    (".sh", "Shell"); (".bash", "Shell"); (".ps1", "PowerShell");
    (".rst", "reStructuredText"); (".md", "Markdown"); (".toml", "TOML");
    (".yaml", "YAML"); (".yml", "YAML"); (".json", "JSON");
    (".ini", "Config"); (".cfg", "Config"); (".conf", "Config");
    (".cmake", "CMake"); (".mk", "Makefile"); (".ipynb", "Jupyter Notebook");
    (".txt", "Text") ].

Definition ROOT_FILENAME_MAP : gmap string string :=
  list_to_map [ ("CMakeLists.txt", "CMake"); ("Makefile", "Makefile") ].

Definition CODE_LANGUAGES : gset string :=
  list_to_set [ "Python"; "C++"; "Cython"; "C"; "Fortran" ].

(** ** Dictionaries *)

Module Dict.

(** [key in d] *)
Definition contains (d : gmap string string) (key : string) : bool :=
  bool_decide (is_Some (d !! key)).

(** [d[key]], which raises [KeyError] on a missing key *)
Definition getitem (d : gmap string string) (key : string) : result string :=
  match d !! key with
  | Some v => Ok v
  | None => Raise (KeyError key)
  end.

(** [d.get(key)] *)
Definition get (d : gmap string string) (key : string) : option string :=
  d !! key.

End Dict.

(** ** The classifier *)

Definition language_for_path (path : Path) : result (option string) :=
  if Dict.contains ROOT_FILENAME_MAP (PurePath.as_posix path) then
    v ← Dict.getitem ROOT_FILENAME_MAP (PurePath.as_posix path);
    Ok (Some v)
  else
    Ok (Dict.get EXTENSION_MAP (Str.lower (PurePath.suffix path))).

(** ** The operating system *)

(** What [subprocess.run(command, cwd=root, check=True, capture_output=True)]
    meets: the process ran and exited, the executable was not found
    ([FileNotFoundError]), or another exception. *)
Inductive proc_outcome : Type :=
| Completed (returncode : Z) (stdout : list byte)
| ExecNotFound
| SpawnError (e : exn).

(** A directory tree, with the entries of a directory in the order the
    operating system lists them.  [File] stands for every entry that is not
    a directory.  A directory that [os.walk] lists and does not enter (a
    symbolic link to a directory, a directory that cannot be read) is a
    [Dir] without entries. *)
#[warnings="-register-all"]
Inductive node : Type :=
| File
| Dir (entries : list (string * node)).

Record World : Type := mkWorld {
  script_file : Path;                         (* [__file__] *)
  resolve : Path → result Path;               (* [Path.resolve] *)
  path_exists : Path → result bool;           (* [Path.exists] *)
  is_file : Path → result bool;               (* [Path.is_file] *)
  open_rb : Path → result (list byte);        (* [Path.open("rb")] and the bytes behind it *)
  run_process : Path → list string → proc_outcome;
  tree_at : Path → node;                      (* what [os.walk] finds at a path *)
  recursion_limit : option nat
    (* how many directories deep [os.walk] can go before the recursion limit
       of the interpreter ends it with [RecursionError]; [None] where
       [os.walk] does not recurse (Python 3.12 and later) *)
}.

(** ** The line counter *)

Definition newline : byte := x0a.

(** [chunk.count(b"\n")] for a one-byte needle. *)
Fixpoint bytes_count (needle : byte) (chunk : list byte) : Z :=
  match chunk with
  | [] => 0
  | b :: chunk' => (if Byte.eqb b needle then 1 else 0) + bytes_count needle chunk'
  end.

(** [fh.read(size)]: at most [size] bytes from the position of the handle.
    The handle is the list of bytes not yet read. *)
Definition fh_read (size : nat) (fh : list byte) : list byte * list byte :=
  (take size fh, drop size fh).

Definition inspect {A : Type} (a : A) : { b : A | a = b } := exist _ a eq_refl.

(** The loop [for chunk in iter(lambda: fh.read(size), b""): total += ...],
    which ends at the first empty chunk. *)
Equations? count_chunks (size : nat) (fh : list byte) (total : Z) : Z
  by wf (List.length fh) lt :=
  count_chunks size fh total with inspect (fh_read size fh) => {
    | exist _ ([], _) _ => total
    | exist _ (b :: chunk, fh') Heq =>
        count_chunks size fh' (total + bytes_count newline (b :: chunk)) }.
Proof.
  unfold fh_read in Heq. injection Heq as Htake Hdrop. subst fh'.
  destruct size as [|size]; [by rewrite take_0 in Htake|].
  destruct fh as [|b0 fh]; [done|].
  rewrite length_drop. simpl. lia.
Qed.

Definition CHUNK_SIZE : nat := 1024 * 1024.

Definition count_newlines (w : World) (path : Path) : result Z :=
  fh ← open_rb w path;
  Ok (count_chunks CHUNK_SIZE fh 0).

(** ** The file lister *)

Module Bytes.

(** [data.split(sep)] for a one-byte separator: never an empty list. *)
Fixpoint split (sep : byte) (data : list byte) : list (list byte) :=
  match data with
  | [] => [[]]
  | b :: data' =>
      if Byte.eqb b sep then [] :: split sep data'
      else match split sep data' with
           | [] => [[b]]
           | piece :: pieces => (b :: piece) :: pieces
           end
  end.

(** The truth value of a bytes object: it is not empty. *)
Definition truthy (data : list byte) : bool :=
  match data with [] => false | _ => true end.

(** [data.decode("utf-8", errors="surrogateescape")] *)
Definition decode (data : list byte) : string := string_of_list_byte data.

End Bytes.

(** [Path(s)]: the components between slashes, without the empty ones and
    the [.] ones; absolute when [s] starts with a slash.  A string that
    starts with exactly two slashes, whose root [pathlib] keeps as [//], is
    read as one that starts with one slash: a listing command prints paths
    relative to the root, and the paths of the scenarios start with none. *)
Definition Path_of_str (s : string) : Path :=
  mkPath
    (match s with String "/" _ => true | _ => false end)
    (List.filter (λ c, negb (String.eqb c "" || String.eqb c "."))
                 (Str.split "/" s)).

(** [full.relative_to(root)], which raises [ValueError] when [root] is not
    a prefix of [full]. *)
Fixpoint strip_prefix (pre l : list string) : option (list string) :=
  match pre, l with
  | [], _ => Some l
  | a :: pre', b :: l' => if String.eqb a b then strip_prefix pre' l' else None
  | _ :: _, [] => None
  end.

Definition relative_to (full root : Path) : result Path :=
  if Bool.eqb (absolute full) (absolute root) then
    match strip_prefix (parts root) (parts full) with
    | Some rest => Ok (mkPath false rest)
    | None => Raise (ValueError "path is not in the subpath of root")
    end
  else Raise (ValueError "path is not in the subpath of root").

Definition run_file_list_command (w : World) (root : Path) (command : list string)
  : result (option (list Path)) :=
  match run_process w root command with
  | Completed returncode stdout =>
      if returncode =? 0 then
        let entries := List.filter Bytes.truthy (Bytes.split x00 stdout) in
        Ok (Some (List.map (λ entry, Path_of_str (Bytes.decode entry)) entries))
      else Ok None                      (* [CalledProcessError], caught *)
  | ExecNotFound => Ok None             (* [FileNotFoundError], caught *)
  | SpawnError e => Raise e
  end.

Module os.

Definition is_dir (n : node) : bool :=
  match n with Dir _ => true | File => false end.

Definition dirnames (entries : list (string * node)) : list string :=
  List.map fst (List.filter (λ e, is_dir (snd e)) entries).

Definition filenames (entries : list (string * node)) : list string :=
  List.map fst (List.filter (λ e, negb (is_dir (snd e))) entries).

Fixpoint assoc {A : Type} (key : string) (l : list (string * A)) : option A :=
  match l with
  | [] => None
  | (k, a) :: l' => if String.eqb k key then Some a else assoc key l'
  end.

(** The budget of directories below one that has been entered. *)
Definition deeper (budget : option nat) : option nat :=
  match budget with
  | Some (S k) => Some k
  | _ => None
  end.

(** [for dirpath, dirnames, filenames in os.walk(top): body], top down.
    [body] is the loop body: from the state and the triple it gives the
    next state and the list [dirnames] as it has left it, which is the
    list of the subdirectories that [os.walk] then visits, in that order.
    A path that is not a directory yields nothing ([onerror] is [None]).
    [budget] is the number of directories, one inside the other, that the
    recursion of [os.walk] can still enter; entering one more raises
    [RecursionError]. *)
Fixpoint walk {S : Type}
    (body : Path → list string → list string → S → result (list string * S))
    (top : Path) (n : node) (budget : option nat) {struct n} : S → result S :=
  match n with
  | File => λ s, Ok s
  | Dir entries =>
      match budget with
      | Some O => λ _, Raise RecursionError
      | _ =>
          let below :=
            (fix below (es : list (string * node)) : list (string * (S → result S)) :=
               match es with
               | [] => []
               | (nm, d) :: es' =>
                   (nm, walk body (PurePath.child top nm) d (deeper budget)) :: below es'
               end) entries in
          λ s,
            '(dirs, s1) ← body top (dirnames entries) (filenames entries) s;
            foldl (λ acc nm, s' ← acc; default Ok (assoc nm below) s') (Ok s1) dirs
      end
  end.

End os.

(** [l.remove(x)]: without the first occurrence of [x]. *)
Fixpoint list_remove (x : string) (l : list string) : list string :=
  match l with
  | [] => []
  | y :: l' => if String.eqb y x then l' else y :: list_remove x l'
  end.

(** The body of the loop over [os.walk(root)] in [list_files]. *)
Definition walk_body (root : Path) (dirpath : Path) (dirnames filenames : list string)
    (out : list Path) : result (list string * list Path) :=
  let dirnames :=
    if bool_decide (".git" ∈ dirnames) then list_remove ".git" dirnames
    else dirnames in
  out ← foldl (λ acc filename,
                 out ← acc;
                 let full := PurePath.child dirpath filename in
                 rel ← relative_to full root;
                 Ok (out ++ [rel])%list)
              (Ok out) filenames;
  Ok (dirnames, out).

Definition list_files (w : World) (root : Path) : result (list Path) :=
  files ← run_file_list_command w root ["rg"; "--files"; "-0"];
  match files with
  | Some files => Ok files
  | None =>
      files ← run_file_list_command w root ["git"; "ls-files"; "-z"];
      match files with
      | Some files => Ok files
      | None =>
          os.walk (walk_body root) root (tree_at w root) (recursion_limit w) []
      end
  end.

(** ** The totals: a [defaultdict(int)], which iterates in the order in
    which its keys were first inserted *)

Module Totals.

Definition t : Type := list (string * Z).

(** [totals[lang] += n]: the key is inserted with [0] at the end when it
    is missing, and the value at the key is then replaced in place. *)
Fixpoint add (lang : string) (n : Z) (totals : t) : t :=
  match totals with
  | [] => [(lang, 0 + n)]
  | (k, v) :: totals' =>
      if String.eqb k lang then (k, v + n) :: totals'
      else (k, v) :: add lang n totals'
  end.

(** [totals.items()] *)
Definition items (totals : t) : list (string * Z) := totals.

(** The truth value of a dictionary: it is not empty. *)
Definition truthy (totals : t) : bool :=
  match totals with [] => false | _ => true end.

End Totals.

(** ** Sorting and summing *)

(** [sorted(rows, key=lambda item: item[1], reverse=True)]: a stable sort,
    in which rows of equal count keep their relative order. *)
Fixpoint insert_desc (x : string * Z) (l : list (string * Z)) : list (string * Z) :=
  match l with
  | [] => [x]
  | y :: l' => if snd y <=? snd x then x :: y :: l' else y :: insert_desc x l'
  end.

Definition sorted_desc (rows : list (string * Z)) : list (string * Z) :=
  foldr insert_desc [] rows.

(** [sum(lines for _, lines in rows)] *)
Definition sum_lines (rows : list (string * Z)) : Z :=
  foldl (λ acc row, acc + snd row) 0 rows.

(** ** The reporter *)

(** [str(n)] *)
Definition str_of_int (n : Z) : string :=
  DecimalString.NilZero.string_of_int (Z.to_int n).

Fixpoint spaces (n : nat) : string :=
  match n with O => "" | S n' => String " " (spaces n') end.

(** [f"{s:<{width}}"] *)
Definition ljust (width : Z) (s : string) : string :=
  s ++ spaces (Z.to_nat (width - Str.chars s)).

(** [f"{s:>{width}}"] *)
Definition rjust (width : Z) (s : string) : string :=
  spaces (Z.to_nat (width - Str.chars s)) ++ s.

(** [max(xs)], which raises [ValueError] on an empty sequence. *)
Definition max_of (xs : list Z) : result Z :=
  match xs with
  | [] => Raise (ValueError "max() iterable argument is empty")
  | x :: xs' => Ok (foldl Z.max x xs')
  end.

Definition format_table (rows : list (string * Z)) : result string :=
  width ← max_of (List.map (λ row, Str.chars (fst row)) rows);
  Ok (Str.join (String "010" "")
        (List.map (λ row, ljust width (fst row) ++ "  " ++ rjust 8 (str_of_int (snd row)))
                  rows)).

(** ** The program *)

(** The parsed command line: [--root] (or its default), [--code-only] and
    [--include-self]. *)
Record Args : Type := mkArgs {
  root : Path;
  code_only : bool;
  include_self : bool
}.

(** How a run ends: [main] returns a status, having printed to standard
    output and standard error, or an exception leaves [main], which the
    interpreter reports with a traceback and the exit status 1. *)
Inductive Run : Type :=
| Exited (code : Z) (stdout stderr : string)
| Crashed (e : exn).

Definition exit_code (r : Run) : Z :=
  match r with
  | Exited code _ _ => code
  | Crashed _ => 1
  end.

Definition nl : string := String "010" "".

(** [print(s)] and [print(s, file=sys.stderr)] add a newline. *)
Definition print (s : string) : string := s ++ nl.

(** The truth value of [lang : str | None]. *)
Definition lang_truthy (lang : option string) : option string :=
  match lang with
  | Some "" => None
  | Some l => Some l
  | None => None
  end.

(** [not args.include_self and full_path.resolve() == self_path]: the
    path is resolved only without the flag. *)
Definition is_excluded (w : World) (args : Args) (self_path full_path : Path)
  : result bool :=
  if negb (include_self args) then
    resolved ← resolve w full_path;
    Ok (bool_decide (resolved = self_path))
  else Ok false.

(** The body of the loop over the listed files. *)
Definition count_file (w : World) (args : Args) (root self_path : Path)
    (totals : Totals.t) (rel_path : Path) : result Totals.t :=
  lang ← language_for_path rel_path;
  match lang_truthy lang with
  | None => Ok totals
  | Some lang =>
      let full_path := PurePath.truediv root rel_path in
      match is_excluded w args self_path full_path with
      | Raise e => Raise e
      | Ok true => Ok totals
      | Ok false =>
          match is_file w full_path with
          | Raise e => Raise e
          | Ok false => Ok totals
          | Ok true =>
              lines ← count_newlines w full_path;
              Ok (Totals.add lang lines totals)
          end
      end
  end.

Definition count_files (w : World) (args : Args) (root self_path : Path)
    (files : list Path) : result Totals.t :=
  foldl (λ acc rel_path, totals ← acc; count_file w args root self_path totals rel_path)
        (Ok []) files.

(** The rows of the table, from the totals. *)
Definition report_rows (args : Args) (totals : Totals.t) : list (string * Z) :=
  let rows :=
    if code_only args then
      sorted_desc (List.filter (λ item, bool_decide (fst item ∈ CODE_LANGUAGES))
                               (Totals.items totals))
    else sorted_desc (Totals.items totals) in
  let grand_total := sum_lines rows in
  (rows ++ [("TOTAL", grand_total)])%list.

(** [main], after the parsing of the command line. *)
Definition main (w : World) (args : Args) : Run :=
  match resolve w (root args) with
  | Raise e => Crashed e
  | Ok root =>
      match path_exists w root with
      | Raise e => Crashed e
      | Ok false =>
          Exited 2 "" (print ("error: root does not exist: " ++ PurePath.as_posix root))
      | Ok true =>
          match (self_path ← resolve w (script_file w);
                 files ← list_files w root;
                 count_files w args root self_path files) with
          | Raise e => Crashed e
          | Ok totals =>
              if negb (Totals.truthy totals) then
                Exited 1 (print "No matching files found.") ""
              else
                match format_table (report_rows args totals) with
                | Raise e => Crashed e
                | Ok table => Exited 0 (print table) ""
                end
          end
      end
  end.

(** ** Concrete worlds, for the scenarios *)

Module Scenario.

Definition repo : Path := mkPath true ["repo"].
Definition script : Path := mkPath true ["repo"; "tools"; "loc_by_language.py"].

(** A file with [n] lines of one character, each ended by a newline. *)
Fixpoint lines (n : nat) : list byte :=
  match n with O => [] | S n' => x61 :: x0a :: lines n' end.

(** The bytes of a listing: each path followed by a null byte. *)
Fixpoint listing (paths : list string) : list byte :=
  match paths with
  | [] => []
  | p :: paths' => (list_byte_of_string p ++ x00 :: listing paths')%list
  end.

Fixpoint lookup_path {A : Type} (p : Path) (l : list (Path * A)) : option A :=
  match l with
  | [] => None
  | (q, a) :: l' => if bool_decide (q = p) then Some a else lookup_path p l'
  end.

(** A world whose root is [/repo], where [rg] answers [rg_outcome], [git]
    answers [git_outcome], [os.walk] finds [tree], the regular files are
    those of [files] (with what opening each one gives), there are no
    symbolic links, no check raises and [os.walk] has no limit. *)
Definition world (rg_outcome git_outcome : proc_outcome) (tree : node)
    (files : list (Path * result (list byte))) : World :=
  {| script_file := script;
     resolve := λ p, Ok p;
     path_exists := λ p,
       Ok (bool_decide (p = repo) || bool_decide (is_Some (lookup_path p files)));
     is_file := λ p, Ok (bool_decide (is_Some (lookup_path p files)));
     open_rb := λ p, default (Raise (OSError "No such file or directory")) (lookup_path p files);
     run_process := λ cwd command,
       match command with
       | "rg" :: _ => rg_outcome
       | "git" :: _ => git_outcome
       | _ => ExecNotFound
       end;
     tree_at := λ p, if bool_decide (p = repo) then tree else File;
     recursion_limit := None |}.

Definition in_repo (rel : list string) : Path := mkPath true ("repo" :: rel).

Definition four_files : list (Path * result (list byte)) :=
  [ (in_repo ["a.py"], Ok (lines 3));
    (in_repo ["b.cpp"], Ok (lines 5));
    (in_repo ["README.md"], Ok (lines 2));
    (in_repo ["notes.txt"], Ok [x68; x69]) ].

Definition four_files_world : World :=
  world (Completed 0 (listing ["a.py"; "b.cpp"; "README.md"; "notes.txt"]))
        ExecNotFound (Dir []) four_files.

(** The manual walk: [.git] is not entered, the files come out relative
    to the root. *)
Definition tree : node :=
  Dir [ ("a.py", File);
        (".git", Dir [("config", File); ("hook.sh", File)]);
        ("src", Dir [("b.cpp", File); (".git", Dir [("c.py", File)]); ("d", Dir [("e.md", File)])]);
        ("z.txt", File) ].

(** Three files of two lines each, listed in the given order. *)
Definition ties_world (order : list string) : World :=
  world (Completed 0 (listing order)) ExecNotFound (Dir [])
    [ (in_repo ["x.py"], Ok (lines 2));
      (in_repo ["y.md"], Ok (lines 2));
      (in_repo ["z.c"], Ok (lines 2));
      (in_repo ["big.f90"], Ok (lines 7)) ].

(** [a.py] and [secret.py] are regular files, and [secret.py] cannot be
    opened. *)
Definition unreadable_world : World :=
  world (Completed 0 (listing ["secret.py"; "a.py"])) ExecNotFound (Dir [])
    [ (in_repo ["a.py"], Ok (lines 3));
      (in_repo ["secret.py"], Raise (OSError "Permission denied")) ].

(** [gone.py] is listed and is no longer there. *)
Definition vanished_world : World :=
  world (Completed 0 (listing ["gone.py"; "a.py"])) ExecNotFound (Dir [])
    [ (in_repo ["a.py"], Ok (lines 3)) ].

(** The only file under the root is the source file of the tool. *)
Definition self_only_world : World :=
  world (Completed 0 (listing ["tools/loc_by_language.py"])) ExecNotFound (Dir [])
    [ (script, Ok (lines 170)) ].

(** [rg] is missing and [git] lists a tracked file, [README.md], that has
    been deleted from the working tree. *)
Definition deleted_readme_world : World :=
  world ExecNotFound (Completed 0 (listing ["README.md"])) (Dir []) [].

(** Only documentation. *)
Definition docs_world : World :=
  world (Completed 0 (listing ["README.md"; "notes.txt"])) ExecNotFound (Dir [])
    [ (in_repo ["README.md"], Ok (lines 2));
      (in_repo ["notes.txt"], Ok [x68; x69]) ].

End Scenario.

(** ** The specification's own words, for comparison *)

(** The classifier as the specification words it, over any two tables: the
    override table at the path string first, the extension table at the
    lower-cased extension otherwise. *)
Definition spec_classify (overrides extensions : gmap string string)
    (path_string extension : string) : option string :=
  match overrides !! path_string with
  | Some label => Some label
  | None => extensions !! Str.lower extension
  end.

(** [x] may stand before [y] in a table: its count is not smaller. *)
Definition count_ge (x y : string * Z) : Prop := snd y <= snd x.

(** The items that the report keeps: all of them, or with [--code-only]
    those of a code language. *)
Definition selected_items (args : Args) (totals : Totals.t) : list (string * Z) :=
  if code_only args then
    List.filter (λ item, bool_decide (fst item ∈ CODE_LANGUAGES)) totals
  else totals.

(** The totals that a run accumulates, once its root is known to exist. *)
Definition totals_of_run (w : World) (args : Args) : result Totals.t :=
  root ← resolve w (root args);
  self_path ← resolve w (script_file w);
  files ← list_files w root;
  count_files w args root self_path files.

(** The checks of the loop on a listed file, before it is read: [Ok true]
    when the file is classified into a language, is not the excluded source
    file of the tool, and is a regular file; [Ok false] when one of the
    checks skips it; the exception of the check that raises. *)
Definition file_checks (w : World) (args : Args) (root self_path rel_path : Path)
  : result bool :=
  lang ← language_for_path rel_path;
  match lang_truthy lang with
  | None => Ok false
  | Some _ =>
      match is_excluded w args self_path (PurePath.truediv root rel_path) with
      | Raise e => Raise e
      | Ok true => Ok false
      | Ok false => is_file w (PurePath.truediv root rel_path)
      end
  end.

(** A listed file is tallied when it is classified into a language, is not
    the excluded source file of the tool, and is a regular file. *)
Definition tallied (w : World) (args : Args) (root self_path rel_path : Path) : bool :=
  match file_checks w args root self_path rel_path with
  | Ok true => true
  | _ => false
  end.

(** A listed file is of a code language. *)
Definition code_file (rel_path : Path) : bool :=
  match language_for_path rel_path with
  | Ok (Some lang) => bool_decide (lang ∈ CODE_LANGUAGES)
  | _ => false
  end.

(** The world in which the listing mechanisms answer otherwise, and all
    else is the same. *)
Definition with_listing (w : World)
    (run : Path → list string → proc_outcome) (tree : Path → node) : World :=
  mkWorld (script_file w) (resolve w) (path_exists w) (is_file w) (open_rb w) run tree
          (recursion_limit w).

(** A listing command has failed when its executable is not found or its
    exit status is not zero. *)
Definition listing_failed (o : proc_outcome) : bool :=
  match o with
  | Completed returncode _ => negb (returncode =? 0)
  | ExecNotFound => true
  | SpawnError _ => false
  end.

(** The paths of a null-separated listing. *)
Definition paths_of_listing (stdout : list byte) : list Path :=
  List.map (λ entry, Path_of_str (Bytes.decode entry))
           (List.filter Bytes.truthy (Bytes.split x00 stdout)).

(** The file at the relative path [rel] of a tree is met without entering
    a directory named [.git]. *)
Inductive reachable_file : node → list string → Prop :=
| reachable_here (entries : list (string * node)) (nm : string) :
    (nm, File) ∈ entries →
    reachable_file (Dir entries) [nm]
| reachable_below (entries sub : list (string * node)) (nm : string) (rel : list string) :
    (nm, Dir sub) ∈ entries →
    nm ≠ ".git" →
    reachable_file (Dir sub) rel →
    reachable_file (Dir entries) (nm :: rel).

(** The relative paths of those files, a directory's own files first and
    then its subdirectories in their order. *)
Fixpoint visible_files (n : node) : list (list string) :=
  match n with
  | File => []
  | Dir entries =>
      (List.map (λ nm, [nm]) (os.filenames entries)
       ++ List.flat_map
            (λ e, if os.is_dir (snd e) && negb (String.eqb (fst e) ".git")
                  then List.map (cons (fst e)) (visible_files (snd e))
                  else [])
            entries)%list
  end.

(** What one entry of a directory adds to them. *)
Definition below_files (e : string * node) : list (list string) :=
  if os.is_dir (snd e) && negb (String.eqb (fst e) ".git")
  then List.map (cons (fst e)) (visible_files (snd e))
  else [].

(** No directory of the tree has two entries of one name, as in every
    file system. *)
Fixpoint names_distinct (n : node) : bool :=
  match n with
  | File => true
  | Dir entries =>
      bool_decide (NoDup (List.map fst entries))
      && forallb (λ e, names_distinct (snd e)) entries
  end.

(** ** What the listed files bring to the totals *)

(** The language and the line count that a listed file brings, when it is
    tallied and can be read. *)
Definition tally_of (w : World) (args : Args) (root self_path rel_path : Path)
  : option (string * Z) :=
  if tallied w args root self_path rel_path then
    match language_for_path rel_path,
          count_newlines w (PurePath.truediv root rel_path) with
    | Ok (Some lang), Ok lines => Some (lang, lines)
    | _, _ => None
    end
  else None.

Definition tallies (w : World) (args : Args) (root self_path : Path)
    (files : list Path) : list (string * Z) :=
  omap (tally_of w args root self_path) files.

(** The lines brought to one language. *)
Definition lines_for (lang : string) (ts : list (string * Z)) : Z :=
  foldr Z.add 0 (List.map snd (List.filter (λ t, String.eqb (fst t) lang) ts)).

(** The elements of a list in the order of their first occurrences. *)
Fixpoint first_seen (l : list string) : list string :=
  match l with
  | [] => []
  | x :: l' => x :: List.filter (λ y, negb (String.eqb y x)) (first_seen l')
  end.

(** A label of the vocabulary: a value of one of the two tables. *)
Definition in_vocabulary (label : string) : Prop :=
  ∃ key : string,
    EXTENSION_MAP !! key = Some label ∨ ROOT_FILENAME_MAP !! key = Some label.

(** The test of [--code-only] on an item. *)
Definition is_code_item (item : string * Z) : bool :=
  bool_decide (fst item ∈ CODE_LANGUAGES).

Module MoreScenarios.

(** Two Python files, one of them in a package, and a document between
    them in the listing. *)
Definition two_py_world : World :=
  Scenario.world
    (Completed 0 (Scenario.listing ["a.py"; "README.md"; "pkg/b.py"]))
    ExecNotFound (Dir [])
    [ (Scenario.in_repo ["a.py"], Ok (Scenario.lines 3));
      (Scenario.in_repo ["README.md"], Ok (Scenario.lines 9));
      (Scenario.in_repo ["pkg"; "b.py"], Ok (Scenario.lines 4)) ].

Definition two_py_files : list Path :=
  [ mkPath false ["a.py"]; mkPath false ["README.md"]; mkPath false ["pkg"; "b.py"] ].

End MoreScenarios.


(** The output of a listing command: each entry followed by a null byte,
    as [rg --files -0] and [git ls-files -z] print. *)
Definition null_terminated (entries : list (list byte)) : list byte :=
  List.flat_map (λ entry, (entry ++ [x00])%list) entries.

(** A name that a directory entry can have: not empty, not [.], without a
    slash. *)
Definition valid_name (nm : string) : bool :=
  negb (String.eqb nm "") && negb (String.eqb nm ".") && negb (Str.contains "/" nm).

(** The file can be opened. *)
Definition readable (w : World) (path : Path) : bool :=
  match open_rb w path with Ok _ => true | Raise _ => false end.

(** The bytes of a text: each line followed by a newline byte. *)
Definition text_of_lines (lines : list (list byte)) : list byte :=
  List.flat_map (λ line, (line ++ [newline])%list) lines.

(** The world in which opening files answers otherwise, and all else is
    the same. *)
Definition with_open (w : World) (open' : Path → result (list byte)) : World :=
  mkWorld (script_file w) (resolve w) (path_exists w) (is_file w) open'
          (run_process w) (tree_at w) (recursion_limit w).

(** ** Worlds whose checks raise, and the depth of a walk *)

(** The worlds in which one path is resolved, tested for existence or tested
    for being a regular file otherwise, and all else is the same. *)
Definition with_resolve (w : World) (at_path : Path) (answer : result Path) : World :=
  mkWorld (script_file w)
          (λ p, if bool_decide (p = at_path) then answer else resolve w p)
          (path_exists w) (is_file w) (open_rb w) (run_process w) (tree_at w)
          (recursion_limit w).

Definition with_exists (w : World) (at_path : Path) (answer : result bool) : World :=
  mkWorld (script_file w) (resolve w)
          (λ p, if bool_decide (p = at_path) then answer else path_exists w p)
          (is_file w) (open_rb w) (run_process w) (tree_at w) (recursion_limit w).

Definition with_is_file (w : World) (at_path : Path) (answer : result bool) : World :=
  mkWorld (script_file w) (resolve w) (path_exists w)
          (λ p, if bool_decide (p = at_path) then answer else is_file w p)
          (open_rb w) (run_process w) (tree_at w) (recursion_limit w).

(** The world in which [os.walk] can enter [limit] directories, one inside
    the other. *)
Definition with_limit (w : World) (limit : nat) : World :=
  mkWorld (script_file w) (resolve w) (path_exists w) (is_file w) (open_rb w)
          (run_process w) (tree_at w) (Some limit).

(** The directories, one inside the other, that the walk of a tree enters:
    those named [.git] are not entered. *)
Fixpoint walk_depth (n : node) : nat :=
  match n with
  | File => 0%nat
  | Dir entries =>
      S (foldr Nat.max 0%nat
           (List.map (λ e, if os.is_dir (snd e) && negb (String.eqb (fst e) ".git")
                           then walk_depth (snd e) else 0%nat)
                     entries))
  end.

(** The walk of the tree stays within the budget. *)
Definition within_limit (budget : option nat) (n : node) : bool :=
  match budget with
  | None => true
  | Some k => (walk_depth n <=? k)%nat
  end.

(** The loop passes a listed file: its checks raise nothing, and it can be
    opened when they tally it. *)
Definition passes (w : World) (args : Args) (root self_path rel_path : Path) : bool :=
  match file_checks w args root self_path rel_path with
  | Ok true => readable w (PurePath.truediv root rel_path)
  | Ok false => true
  | Raise _ => false
  end.

(** ** Extensions written in another case *)

Definition is_lower_letter (c : ascii) : bool := Str.between 97 122 c.

(** An ASCII character that is not a capital letter. *)
Definition is_plain (c : ascii) : bool :=
  ((nat_of_ascii c <? 128)%nat && negb (Str.between 65 90 c))%bool.

(** The capital of a small letter. *)
Definition capital_of (c : ascii) : ascii := ascii_of_nat (nat_of_ascii c - 32).

(** [case_variant s t]: the string [s] is the string [t], which has no
    capital letter, with some of its letters written as capitals. *)
Inductive case_variant : string → string → Prop :=
| case_variant_nil : case_variant "" ""
| case_variant_same (c : ascii) (s t : string) :
    is_plain c = true → case_variant s t →
    case_variant (String c s) (String c t)
| case_variant_capital (c : ascii) (s t : string) :
    is_lower_letter c = true → case_variant s t →
    case_variant (String (capital_of c) s) (String c t).

Module RaisingScenarios.

(** [a.py], the source file of the tool and [b.cpp] are regular files and
    are listed. *)
Definition with_self_files : list Path :=
  [ mkPath false ["a.py"]; mkPath false ["tools"; "loc_by_language.py"];
    mkPath false ["b.cpp"] ].

Definition with_self_world : World :=
  Scenario.world
    (Completed 0 (Scenario.listing ["a.py"; "tools/loc_by_language.py"; "b.cpp"]))
    ExecNotFound (Dir [])
    [ (Scenario.in_repo ["a.py"], Ok (Scenario.lines 3));
      (Scenario.script, Ok (Scenario.lines 170));
      (Scenario.in_repo ["b.cpp"], Ok (Scenario.lines 5)) ].

(** A root whose name is too long for the file system: [exists] raises. *)
Definition long_root : Path := mkPath true ["a_name_of_three_hundred_characters"].

Definition long_root_world : World :=
  with_exists Scenario.four_files_world long_root (Raise (OSError "File name too long")).

(** [rg] is there and cannot be executed, while [git] would list a file. *)
Definition rg_not_executable_world : World :=
  Scenario.world (SpawnError (OSError "Permission denied"))
    (Completed 0 (Scenario.listing ["a.py"])) (Dir [("a.py", File)])
    [ (Scenario.in_repo ["a.py"], Ok (Scenario.lines 3)) ].

(** Neither [rg] nor [git] is found, and the tree is three directories deep
    where [os.walk] can enter two. *)
Definition deep_tree : node :=
  Dir [ ("a.py", File); ("d", Dir [ ("e", Dir [ ("f.py", File) ]) ]) ].

Definition deep_world : World :=
  with_limit (Scenario.world ExecNotFound ExecNotFound deep_tree []) 2.

(** [loop.py] is a symbolic link to itself: it cannot be resolved, and it
    is not a regular file. *)
Definition loop_world : World :=
  with_resolve
    (Scenario.world (Completed 0 (Scenario.listing ["loop.py"; "a.py"]))
       ExecNotFound (Dir [])
       [ (Scenario.in_repo ["a.py"], Ok (Scenario.lines 3)) ])
    (Scenario.in_repo ["loop.py"])
    (Raise (RuntimeError "Symlink loop")).

End RaisingScenarios.

(** The walk below one entry of a directory stays within the budget. *)
Definition entry_within (budget : option nat) (e : string * node) : bool :=
  if os.is_dir (snd e) && negb (String.eqb (fst e) ".git")
  then within_limit budget (snd e)
  else true.

(** ** Strings of ASCII characters *)




(** * Checks on concrete inputs *)

Example language_for_path_py :
  language_for_path (mkPath false ["src"; "A.PY"]) = Ok (Some "Python").
Proof. vm_compute. reflexivity. Qed.

Example language_for_path_makefile :
  language_for_path (mkPath false ["Makefile"]) = Ok (Some "Makefile").
Proof. vm_compute. reflexivity. Qed.

Example language_for_path_sub_makefile :
  language_for_path (mkPath false ["sub"; "Makefile"]) = Ok None.
Proof. vm_compute. reflexivity. Qed.

Example language_for_path_dotfile :
  language_for_path (mkPath false [".py"]) = Ok None.
Proof. vm_compute. reflexivity. Qed.

Example count_chunks_ex :
  count_chunks 2 [x61; x0a; x0a; x62; x0a; x63] 0 = 3.
Proof. vm_compute. reflexivity. Qed.

Example count_chunks_big :
  count_chunks CHUNK_SIZE [x61; x0a; x0a; x62; x0a; x63] 0 = 3.
Proof. vm_compute. reflexivity. Qed.

Example Path_of_str_ex :
  Path_of_str "src/./a//b.py" = mkPath false ["src"; "a"; "b.py"].
Proof. reflexivity. Qed.

Example format_table_ex :
  format_table [("C++", 5); ("Python", 3); ("TOTAL", 8)]
  = Ok ("C++            5" ++ String "010" "" ++
        "Python         3" ++ String "010" "" ++
        "TOTAL          8").
Proof. vm_compute. reflexivity. Qed.

Example count_chunks_zero : count_chunks 3 [x61; x62; x63; x64] 0 = 0.
Proof. vm_compute. reflexivity. Qed.

Example count_chunks_no_final_newline :
  count_chunks 3 [x61; x0a; x62; x0a; x63; x64; x65] 0 = 2.
Proof. vm_compute. reflexivity. Qed.

Example language_for_path_parsed :
  language_for_path (Path_of_str "./sub/CMakeLists.txt") = Ok (Some "Text")
  ∧ language_for_path (Path_of_str "./CMakeLists.txt") = Ok (Some "CMake")
  ∧ language_for_path (Path_of_str "pkg/Mod.F90") = Ok (Some "Fortran")
  ∧ language_for_path (Path_of_str "pkg/archive.tar.gz") = Ok None
  ∧ language_for_path (Path_of_str "pkg/.bashrc") = Ok None.
Proof. repeat split; vm_compute; reflexivity. Qed.

Example sorted_desc_stable_ex :
  sorted_desc [("a", 1); ("b", 3); ("c", 1); ("d", 3); ("e", 2)]
  = [("b", 3); ("d", 3); ("e", 2); ("a", 1); ("c", 1)].
Proof. vm_compute. reflexivity. Qed.

Module ScenarioChecks.
Import Scenario.

Example report :
  main four_files_world (mkArgs repo false false)
  = Exited 0 (print ("C++              5" ++ nl ++
                     "Python           3" ++ nl ++
                     "Markdown         2" ++ nl ++
                     "Text             0" ++ nl ++
                     "TOTAL           10")) "".
Proof. vm_compute. reflexivity. Qed.

Example report_code_only :
  main four_files_world (mkArgs repo true false)
  = Exited 0 (print ("C++            5" ++ nl ++
                     "Python         3" ++ nl ++
                     "TOTAL          8")) "".
Proof. vm_compute. reflexivity. Qed.

Example empty_root :
  main (world ExecNotFound ExecNotFound (Dir []) []) (mkArgs repo false false)
  = Exited 1 (print "No matching files found.") "".
Proof. vm_compute. reflexivity. Qed.

Example missing_root :
  main four_files_world (mkArgs (mkPath true ["nonexistent"]) false false)
  = Exited 2 "" (print "error: root does not exist: /nonexistent").
Proof. vm_compute. reflexivity. Qed.

Example walk_ex :
  list_files (world ExecNotFound (Completed 128 []) tree []) repo
  = Ok [ mkPath false ["a.py"]; mkPath false ["z.txt"];
         mkPath false ["src"; "b.cpp"]; mkPath false ["src"; "d"; "e.md"] ].
Proof. vm_compute. reflexivity. Qed.

(** Languages of equal count stand in the order in which the listing
    first met them: another order of the listing, another order of rows. *)
Example ties_follow_listing :
  main (ties_world ["x.py"; "y.md"; "z.c"]) (mkArgs repo false false)
  = Exited 0 (print ("Python           2" ++ nl ++ "Markdown         2" ++ nl ++
                     "C                2" ++ nl ++ "TOTAL            6")) ""
  ∧ main (ties_world ["z.c"; "y.md"; "x.py"]) (mkArgs repo false false)
    = Exited 0 (print ("C                2" ++ nl ++ "Markdown         2" ++ nl ++
                       "Python           2" ++ nl ++ "TOTAL            6")) "".
Proof. split; vm_compute; reflexivity. Qed.

(** An exception of [subprocess.run] other than the two that are caught
    leaves [list_files] and [main]. *)
Example spawn_error :
  main (world (SpawnError (OSError "Permission denied")) ExecNotFound (Dir []) [])
       (mkArgs repo false false)
  = Crashed (OSError "Permission denied").
Proof. vm_compute. reflexivity. Qed.

(** The source file of the tool is counted with [--include-self]. *)
Example include_self_counts :
  main self_only_world (mkArgs repo false true)
  = Exited 0 (print ("Python       170" ++ nl ++ "TOTAL        170")) "".
Proof. vm_compute. reflexivity. Qed.

End ScenarioChecks.

(** * The line counter *)

Section LineCounter.

Lemma bytes_count_app needle (a b : list byte) :
  bytes_count needle (a ++ b) = bytes_count needle a + bytes_count needle b.
Proof. induction a as [|x a IH]; simpl; [done | rewrite IH; lia]. Qed.

Lemma bytes_count_occ (l : list byte) :
  bytes_count newline l = Z.of_nat (count_occ byte_eq_dec l newline).
Proof.
  induction l as [|b l IH]; [done|]. simpl. rewrite IH.
  destruct (byte_eq_dec b newline) as [->|Hne].
  - rewrite (byte_dec_lb eq_refl). lia.
  - destruct (Byte.eqb b newline) eqn:E; [|lia].
    by apply byte_dec_bl in E.
Qed.

(** The chunked loop adds to [total] the newlines of what is left to read,
    whatever the positive chunk size. *)
Lemma count_chunks_total (size : nat) (fh : list byte) (total : Z) :
  (0 < size)%nat →
  count_chunks size fh total = total + bytes_count newline fh.
Proof.
  intros Hsize. funelim (count_chunks size fh total).
  - destruct size; [lia|]. destruct fh; [simpl; lia | discriminate].
  - match goal with IH : _ → count_chunks _ _ _ = _ |- _ => rewrite IH by done end.
    match goal with E : take _ _ = _ :: _ |- _ => rewrite <- E end.
    rewrite <- Z.add_assoc, <- bytes_count_app.
    by rewrite take_drop.
Qed.

(** The body of the loop, over any cutting of the content into chunks. *)
Lemma count_over_chunks (chunks : list (list byte)) (total : Z) :
  foldl (λ total chunk, total + bytes_count newline chunk) total chunks
  = total + bytes_count newline (List.concat chunks).
Proof.
  revert total. induction chunks as [|chunk chunks IH]; intros total; simpl; [lia|].
  rewrite IH, bytes_count_app. lia.
Qed.

(** A file that opens counts the newline bytes of its content. *)
Lemma count_newlines_value (w : World) (path : Path) (content : list byte) :
  open_rb w path = Ok content →
  count_newlines w path = Ok (Z.of_nat (count_occ byte_eq_dec content newline)).
Proof.
  intros Hopen. unfold count_newlines. rewrite Hopen. simpl.
  rewrite count_chunks_total by (unfold CHUNK_SIZE; lia).
  by rewrite bytes_count_occ.
Qed.

End LineCounter.

(** C3.  A file whose bytes hold exactly [k] newline bytes counts [k]:
    [count_newlines] returns [k] with its chunks of [CHUNK_SIZE] bytes, the
    chunked loop returns [k] for every positive chunk size, the body of the
    loop sums to [k] over any cutting of the content into chunks, and bytes
    after the last newline add nothing. *)
Theorem count_newlines_exact (w : World) (path : Path) (content : list byte) (k : nat) :
  open_rb w path = Ok content →
  count_occ byte_eq_dec content newline = k →
  count_newlines w path = Ok (Z.of_nat k)
  ∧ (∀ size : nat, (0 < size)%nat → count_chunks size content 0 = Z.of_nat k)
  ∧ (∀ chunks : list (list byte),
       List.concat chunks = content →
       foldl (λ total chunk, total + bytes_count newline chunk) 0 chunks = Z.of_nat k)
  ∧ (∀ tail : list byte,
       count_occ byte_eq_dec tail newline = 0%nat →
       count_chunks CHUNK_SIZE (content ++ tail) 0 = Z.of_nat k).
Proof.
  intros Hopen Hk.
  assert (Hsz : (0 < CHUNK_SIZE)%nat) by (unfold CHUNK_SIZE; lia).
  repeat split.
  - by rewrite (count_newlines_value w path content Hopen), Hk.
  - intros size Hsize. by rewrite count_chunks_total, bytes_count_occ, Hk.
  - intros chunks Hcut. by rewrite count_over_chunks, Hcut, bytes_count_occ, Hk.
  - intros tail Htail.
    rewrite count_chunks_total, bytes_count_app, !bytes_count_occ by done.
    rewrite Hk, Htail. lia.
Qed.

Lemma count_newlines_exact_witness :
  open_rb Scenario.four_files_world (Scenario.in_repo ["b.cpp"]) = Ok (Scenario.lines 5)
  ∧ count_occ byte_eq_dec (Scenario.lines 5) newline = 5%nat
  ∧ count_newlines Scenario.four_files_world (Scenario.in_repo ["b.cpp"]) = Ok 5.
Proof.
  split; [reflexivity|]. split; [reflexivity|].
  apply (count_newlines_exact Scenario.four_files_world (Scenario.in_repo ["b.cpp"])
           (Scenario.lines 5) 5); reflexivity.
Defined.

(** * The classifier *)

Section Classifier.

Lemma ROOT_FILENAME_MAP_lookup (s : string) :
  ROOT_FILENAME_MAP !! s =
    if decide (s = "CMakeLists.txt") then Some "CMake"
    else if decide (s = "Makefile") then Some "Makefile"
    else None.
Proof.
  unfold ROOT_FILENAME_MAP. simpl.
  repeat case_decide; subst; simplify_map_eq; done.
Qed.

Lemma language_for_path_refines (p : Path) :
  language_for_path p
  = Ok (spec_classify ROOT_FILENAME_MAP EXTENSION_MAP
          (PurePath.as_posix p) (PurePath.suffix p)).
Proof.
  unfold language_for_path, spec_classify, Dict.contains, Dict.getitem, Dict.get.
  destruct (ROOT_FILENAME_MAP !! PurePath.as_posix p) as [label|] eqn:E.
  - rewrite bool_decide_eq_true_2 by eauto. done.
  - rewrite bool_decide_eq_false_2; [done|]. by intros [? ?].
Qed.

Lemma contains_app (c : ascii) (a b : string) :
  Str.contains c (a ++ b) = Str.contains c a || Str.contains c b.
Proof. induction a as [|d a IH]; simpl; [done|]. rewrite IH. by rewrite orb_assoc. Qed.

Lemma join_contains_sep (a b : string) (l : list string) :
  Str.contains "/" (Str.join "/" (a :: b :: l)) = true.
Proof.
  change (Str.join "/" (a :: b :: l)) with (a ++ "/" ++ Str.join "/" (b :: l)).
  rewrite contains_app. simpl. by rewrite orb_true_r.
Qed.

(** The string of a path of two components or more has a slash. *)
Lemma as_posix_nested (abs : bool) (a b : string) (l : list string) :
  Str.contains "/" (PurePath.as_posix (mkPath abs (a :: b :: l))) = true.
Proof.
  unfold PurePath.as_posix. cbn [absolute parts]. destruct abs.
  - done.
  - apply join_contains_sep.
Qed.

Lemma nested_not_override (abs : bool) (a b : string) (l : list string) :
  ROOT_FILENAME_MAP !! PurePath.as_posix (mkPath abs (a :: b :: l)) = None.
Proof.
  rewrite ROOT_FILENAME_MAP_lookup.
  pose proof (as_posix_nested abs a b l) as H.
  repeat case_decide; try done.
  all: match goal with E : PurePath.as_posix _ = _ |- _ => rewrite E in H end; discriminate.
Qed.

Lemma suffix_last (abs : bool) (dir : list string) (nm : string) :
  PurePath.suffix (mkPath abs (dir ++ [nm])) = PurePath.suffix (mkPath false [nm]).
Proof. unfold PurePath.suffix, PurePath.name. cbn [parts]. by rewrite last_last. Qed.

Lemma rfind_bound (c : ascii) (s : string) : -1 <= Str.rfind c s.
Proof.
  induction s as [|d s IH]; simpl; [lia|].
  destruct (0 <=? Str.rfind c s) eqn:E; [apply Z.leb_le in E; lia|].
  destruct (Ascii.eqb d c); lia.
Qed.

Lemma rfind_absent (c : ascii) (s : string) :
  Str.contains c s = false → Str.rfind c s = -1.
Proof.
  induction s as [|d s IH]; simpl; [done|].
  intros [Hd Hs]%orb_false_iff. rewrite (IH Hs), Hd. done.
Qed.

(** The last dot of [stem.v], where [v] has no dot, is the one written. *)
Lemma rfind_last (c : ascii) (stem v : string) :
  Str.contains c v = false →
  Str.rfind c (stem ++ String c v) = Z.of_nat (String.length stem).
Proof.
  intros Hv. induction stem as [|d stem IH].
  - change ("" ++ String c v) with (String c v). cbn [Str.rfind].
    rewrite (rfind_absent _ _ Hv), Ascii.eqb_refl. done.
  - change (String d stem ++ String c v) with (String d (stem ++ String c v)).
    cbn [Str.rfind String.length]. rewrite IH.
    destruct (0 <=? Z.of_nat (String.length stem)) eqn:E; [lia|].
    apply Z.leb_gt in E. lia.
Qed.

Lemma length_append (a b : string) :
  String.length (a ++ b) = (String.length a + String.length b)%nat.
Proof.
  induction a as [|c a IH]; [done|].
  change (String c a ++ b) with (String c (a ++ b)). cbn [String.length].
  by rewrite IH.
Qed.

Lemma substring_all (s : string) : String.substring 0 (String.length s) s = s.
Proof. induction s as [|c s IH]; [done|]. cbn. by rewrite IH. Qed.

Lemma slice_from_append (a b : string) :
  Str.slice_from (Z.of_nat (String.length a)) (a ++ b) = b.
Proof.
  unfold Str.slice_from. rewrite Nat2Z.id, length_append.
  replace (String.length a + String.length b - String.length a)%nat
    with (String.length b) by lia.
  induction a as [|c a IH]; [apply substring_all|]. apply IH.
Qed.

(** [Path.suffix] of a name [stem.v]: the last dot and what follows it,
    when something stands before the dot and after it. *)
Lemma suffix_of_name (abs : bool) (dir : list string) (stem v : string) :
  stem ≠ "" → v ≠ "" → Str.contains "." v = false →
  PurePath.suffix (mkPath abs (dir ++ [stem ++ String "." v])) = String "." v.
Proof.
  intros Hstem Hv Hdot. rewrite suffix_last.
  unfold PurePath.suffix, PurePath.name. cbn [parts List.last].
  rewrite (rfind_last _ stem v Hdot).
  unfold Str.len. rewrite length_append. cbn [String.length].
  destruct stem as [|c stem]; [done|]. destruct v as [|d v]; [done|].
  cbn [String.length].
  replace (0 <? Z.of_nat (S (String.length stem))) with true by (symmetry; apply Z.ltb_lt; lia).
  replace (Z.of_nat (S (String.length stem))
           <? Z.of_nat (S (String.length stem) + S (S (String.length v))) - 1)
    with true by (symmetry; apply Z.ltb_lt; lia).
  cbn [andb]. apply (slice_from_append (String c stem)).
Qed.

(** A name with no dot, and a name whose only dot is its first character,
    has no suffix. *)
Lemma suffix_of_plain_name (abs : bool) (dir : list string) (nm : string) :
  Str.contains "." nm = false →
  PurePath.suffix (mkPath abs (dir ++ [nm])) = ""
  ∧ PurePath.suffix (mkPath abs (dir ++ [String "." nm])) = "".
Proof.
  intros Hdot. rewrite !suffix_last. unfold PurePath.suffix, PurePath.name.
  cbn [parts List.last]. split.
  - by rewrite (rfind_absent _ _ Hdot).
  - cbn [Str.rfind]. rewrite (rfind_absent _ _ Hdot). done.
Qed.

(** [str.lower] on a string of ASCII characters writes its capitals small. *)
Lemma lower_case_variant (s t : string) : case_variant s t → Str.lower s = t.
Proof.
  induction 1 as [|c s t Hc _ IH|c s t Hc _ IH]; [done| |].
  - destruct c as [[] [] [] [] [] [] [] []]; try discriminate Hc.
    all: cbn [Str.lower]; rewrite IH; reflexivity.
  - destruct c as [[] [] [] [] [] [] [] []]; try discriminate Hc.
    all: change (Str.lower (String ?a s)) with (String (Str.lower_ascii a) (Str.lower s)).
    all: rewrite IH; reflexivity.
Qed.

End Classifier.

(** C5.  The classifier returns the override label when the string of the
    path is, exactly, a key of the override table ([CMakeLists.txt] or
    [Makefile], compared as they are written); otherwise the entry of the
    extension table at the lower-cased extension, so that two extensions
    that differ in case only classify alike; otherwise nothing.  The
    extension of a file [stem.v] is [.v], the last dot of the name and what
    follows it, and it is looked up with its capitals written small: with
    [.k] a key of the table, every way of writing [k] with capitals
    classifies as [.k] does.  A name with no dot, and a name whose only dot
    comes first, has no extension and is unclassified.  The classifier is
    the specification's classifier at the two tables of the program, a
    function of the path string and the extension alone: no file is read and
    no exception is raised. *)
Theorem language_for_path_classifies (p : Path) :
  language_for_path p
  = Ok (spec_classify ROOT_FILENAME_MAP EXTENSION_MAP
          (PurePath.as_posix p) (PurePath.suffix p))
  ∧ (∀ label : string,
       ROOT_FILENAME_MAP !! PurePath.as_posix p = Some label →
       language_for_path p = Ok (Some label))
  ∧ (is_Some (ROOT_FILENAME_MAP !! PurePath.as_posix p)
     ↔ PurePath.as_posix p = "CMakeLists.txt" ∨ PurePath.as_posix p = "Makefile")
  ∧ (ROOT_FILENAME_MAP !! PurePath.as_posix p = None →
     language_for_path p = Ok (EXTENSION_MAP !! Str.lower (PurePath.suffix p)))
  ∧ (∀ q : Path,
       ROOT_FILENAME_MAP !! PurePath.as_posix p = None →
       ROOT_FILENAME_MAP !! PurePath.as_posix q = None →
       Str.lower (PurePath.suffix p) = Str.lower (PurePath.suffix q) →
       language_for_path p = language_for_path q)
  ∧ (∀ (abs : bool) (dir : list string) (stem v k : string),
       p = mkPath abs (dir ++ [stem ++ String "." v]) →
       stem ≠ "" → v ≠ "" → Str.contains "." v = false →
       case_variant v k →
       ROOT_FILENAME_MAP !! PurePath.as_posix p = None →
       language_for_path p = Ok (EXTENSION_MAP !! String "." k))
  ∧ (∀ (abs : bool) (dir : list string) (nm : string),
       p = mkPath abs (dir ++ [nm]) ∨ p = mkPath abs (dir ++ [String "." nm]) →
       Str.contains "." nm = false →
       ROOT_FILENAME_MAP !! PurePath.as_posix p = None →
       language_for_path p = Ok None).
Proof.
  split; [apply language_for_path_refines|].
  split; [|split; [|split; [|split; [|split]]]].
  - intros label H. rewrite language_for_path_refines. unfold spec_classify. by rewrite H.
  - rewrite ROOT_FILENAME_MAP_lookup. repeat case_decide; split.
    all: try (intros [? ?]; done). all: try (intros [?|?]; done). all: eauto.
  - intros H. rewrite language_for_path_refines. unfold spec_classify. by rewrite H.
  - intros q Hp Hq Hext. rewrite !language_for_path_refines. unfold spec_classify.
    by rewrite Hp, Hq, Hext.
  - intros abs dir stem v k -> Hstem Hv Hdot Hcase Hover.
    rewrite language_for_path_refines. unfold spec_classify. rewrite Hover.
    rewrite suffix_of_name by done.
    change (Str.lower (String "." v)) with (String "." (Str.lower v)).
    by rewrite (lower_case_variant v k Hcase).
  - intros abs dir nm Hp Hdot Hover.
    rewrite language_for_path_refines. unfold spec_classify. rewrite Hover.
    destruct (suffix_of_plain_name abs dir nm Hdot) as [H1 H2].
    destruct Hp as [-> | ->]; [rewrite H1|rewrite H2]; reflexivity.
Qed.

Lemma language_for_path_classifies_witness :
  language_for_path (mkPath false ["Makefile"]) = Ok (Some "Makefile")
  ∧ language_for_path (mkPath false ["makefile"]) = Ok None
  ∧ language_for_path (mkPath false ["src"; "A.PY"])
    = language_for_path (mkPath false ["b.py"])
  ∧ language_for_path (mkPath false (["src"] ++ ["a.tar" ++ String "." "Md"]))
    = Ok (Some "Markdown")
  ∧ language_for_path (mkPath false (["src"] ++ [String "." "py"])) = Ok None.
Proof.
  split; [|split; [|split; [|split]]].
  - apply (proj1 (proj2 (language_for_path_classifies (mkPath false ["Makefile"])))).
    reflexivity.
  - apply (proj1 (proj2 (proj2 (proj2
             (language_for_path_classifies (mkPath false ["makefile"])))))).
    reflexivity.
  - apply (proj1 (proj2 (proj2 (proj2 (proj2
             (language_for_path_classifies (mkPath false ["src"; "A.PY"]))))))).
    all: reflexivity.
  - apply (proj1 (proj2 (proj2 (proj2 (proj2 (proj2
             (language_for_path_classifies
                (mkPath false (["src"] ++ ["a.tar" ++ String "." "Md"]))))))))
             false ["src"] "a.tar" "Md" "md").
    + reflexivity.
    + discriminate.
    + discriminate.
    + reflexivity.
    + apply (case_variant_capital "m" "d" "d"); [reflexivity|].
      apply (case_variant_same "d" "" ""); [reflexivity|].
      apply case_variant_nil.
    + reflexivity.
  - apply (proj2 (proj2 (proj2 (proj2 (proj2 (proj2
             (language_for_path_classifies (mkPath false (["src"] ++ [String "." "py"]))))))))
             false ["src"] "py").
    + right. reflexivity.
    + reflexivity.
    + reflexivity.
Defined.

(** C9.  An override never applies below the root: the string of a path
    with a directory part has a slash and is no key of the override table,
    so the file is classified by the extension of its name alone.  A
    [Makefile] in a subdirectory is unclassified and a [CMakeLists.txt] in
    a subdirectory is [Text]. *)
Theorem overrides_only_at_root (abs : bool) (dir : list string) (nm : string) :
  dir ≠ [] →
  ROOT_FILENAME_MAP !! PurePath.as_posix (mkPath abs (dir ++ [nm])) = None
  ∧ language_for_path (mkPath abs (dir ++ [nm]))
    = Ok (EXTENSION_MAP !! Str.lower (PurePath.suffix (mkPath false [nm])))
  ∧ language_for_path (mkPath abs (dir ++ ["Makefile"])) = Ok None
  ∧ language_for_path (mkPath abs (dir ++ ["CMakeLists.txt"])) = Ok (Some "Text").
Proof.
  intros Hdir.
  assert (Hgen : ∀ n : string,
    ROOT_FILENAME_MAP !! PurePath.as_posix (mkPath abs (dir ++ [n])) = None).
  { intros n. destruct dir as [|a [|b l]]; [done| |]; apply nested_not_override. }
  assert (Hlang : ∀ n : string, language_for_path (mkPath abs (dir ++ [n]))
    = Ok (EXTENSION_MAP !! Str.lower (PurePath.suffix (mkPath false [n])))).
  { intros n. rewrite language_for_path_refines. unfold spec_classify.
    by rewrite Hgen, suffix_last. }
  split; [apply Hgen|]. split; [apply Hlang|].
  split; rewrite Hlang; reflexivity.
Qed.

Lemma overrides_only_at_root_witness :
  ["cmake"; "modules"] ≠ []
  ∧ language_for_path (mkPath false (["cmake"; "modules"] ++ ["CMakeLists.txt"]))
    = Ok (Some "Text").
Proof.
  split; [discriminate|].
  apply (overrides_only_at_root false ["cmake"; "modules"] "CMakeLists.txt").
  discriminate.
Defined.

(** * The aggregator: sorting and the total *)

Section Sorting.

Implicit Types (x y : string * Z) (l rows : list (string * Z)).

Lemma insert_desc_perm x l : insert_desc x l ≡ₚ x :: l.
Proof.
  induction l as [|y l IH]; simpl; [done|].
  case_match; [done|]. rewrite IH. apply Permutation_swap.
Qed.

Lemma sorted_desc_perm l : sorted_desc l ≡ₚ l.
Proof.
  induction l as [|x l IH]; simpl; [done|].
  rewrite insert_desc_perm. by f_equiv.
Qed.

Lemma insert_desc_sorted x l :
  StronglySorted count_ge l → StronglySorted count_ge (insert_desc x l).
Proof.
  induction 1 as [|y l Hl IH Hy]; simpl.
  - repeat constructor.
  - destruct (snd y <=? snd x) eqn:E.
    + apply Z.leb_le in E. constructor; [by constructor|].
      constructor; [done|].
      eapply Forall_impl; [exact Hy|]. unfold count_ge. intros; simpl in *; lia.
    + apply Z.leb_gt in E. constructor; [done|].
      rewrite insert_desc_perm. constructor; [unfold count_ge; lia | done].
Qed.

Lemma sorted_desc_sorted l : StronglySorted count_ge (sorted_desc l).
Proof.
  induction l as [|x l IH]; simpl; [constructor|]. by apply insert_desc_sorted.
Qed.

(** Stability: the rows of any one count come out in the order in which
    they went in. *)
Lemma insert_desc_stable (c : Z) x l :
  List.filter (λ r, snd r =? c) (insert_desc x l)
  = List.filter (λ r, snd r =? c) (x :: l).
Proof.
  induction l as [|y l IH]; [done|].
  cbn [insert_desc]. destruct (snd y <=? snd x) eqn:E; [done|].
  apply Z.leb_gt in E.
  cbn [List.filter] in *. rewrite IH.
  destruct (snd x =? c) eqn:Ex; [|done].
  apply Z.eqb_eq in Ex.
  destruct (snd y =? c) eqn:Ey; [|done].
  apply Z.eqb_eq in Ey. lia.
Qed.

Lemma sorted_desc_stable (c : Z) l :
  List.filter (λ r, snd r =? c) (sorted_desc l) = List.filter (λ r, snd r =? c) l.
Proof.
  induction l as [|x l IH]; [done|].
  cbn [sorted_desc foldr]. fold (sorted_desc l).
  rewrite insert_desc_stable. cbn [List.filter]. by rewrite IH.
Qed.

Lemma sum_lines_from (acc : Z) rows :
  foldl (λ a row, a + snd row) acc rows = acc + foldr Z.add 0 (List.map snd rows).
Proof.
  revert acc. induction rows as [|r rows IH]; intros acc; simpl; [lia|].
  rewrite IH. lia.
Qed.

Lemma sum_lines_sum rows : sum_lines rows = foldr Z.add 0 (List.map snd rows).
Proof. unfold sum_lines. rewrite sum_lines_from. lia. Qed.

End Sorting.

(** * The report of a run *)

Section Report.

(** A run that ends with the status 0 has printed the table of its totals,
    and nothing else. *)
Lemma main_prints_table (w : World) (args : Args) (out err : string) :
  main w args = Exited 0 out err →
  ∃ totals table,
    totals_of_run w args = Ok totals
    ∧ Totals.truthy totals = true
    ∧ format_table (report_rows args totals) = Ok table
    ∧ out = print table ∧ err = "".
Proof.
  unfold main, totals_of_run.
  destruct (resolve w (root args)) as [rt|e]; [|discriminate]. cbn [mbind result_bind].
  destruct (path_exists w rt) as [[|]|e]; [|discriminate..].
  destruct (resolve w (script_file w) ≫= _) as [totals|e]; [|discriminate].
  destruct (Totals.truthy totals) eqn:Ht; simpl; [|discriminate].
  destruct (format_table (report_rows args totals)) as [table|e] eqn:Hf; [|discriminate].
  intros [= <- <-]. by exists totals, table.
Qed.

Lemma report_rows_shape (args : Args) (totals : Totals.t) :
  report_rows args totals
  = (sorted_desc (selected_items args totals)
     ++ [("TOTAL", sum_lines (sorted_desc (selected_items args totals)))])%list.
Proof. unfold report_rows, selected_items, Totals.items. by destruct (code_only args). Qed.

(** The table of a list of rows that is not empty is always produced. *)
Lemma format_table_ok (rows : list (string * Z)) :
  rows ≠ [] → ∃ table, format_table rows = Ok table.
Proof. destruct rows as [|r rows]; [done|]. intros _. unfold format_table. simpl. eauto. Qed.

End Report.

(** C2.  A run that prints a table prints the table of some rows followed
    by a last row labelled [TOTAL], whose count is the sum of the counts of
    the rows before it; those rows are the rows of the totals of the run
    after the [--code-only] filter, whatever the files and the flags. *)
Theorem total_row_is_sum (w : World) (args : Args) (out err : string) :
  main w args = Exited 0 out err →
  ∃ (totals : Totals.t) (rows : list (string * Z)) (table : string),
    totals_of_run w args = Ok totals
    ∧ rows ≡ₚ selected_items args totals
    ∧ format_table (rows ++ [("TOTAL", foldr Z.add 0 (List.map snd rows))]) = Ok table
    ∧ out = print table
    ∧ report_rows args totals = (rows ++ [("TOTAL", foldr Z.add 0 (List.map snd rows))])%list.
Proof.
  intros Hmain.
  destruct (main_prints_table _ _ _ _ Hmain) as (totals & table & Ht & _ & Hf & -> & _).
  exists totals, (sorted_desc (selected_items args totals)), table.
  rewrite <- sum_lines_sum, <- report_rows_shape.
  split; [done|]. split; [apply sorted_desc_perm|]. done.
Qed.

Lemma total_row_is_sum_witness :
  ∃ (totals : Totals.t) (rows : list (string * Z)) (table : string),
    totals_of_run Scenario.four_files_world (mkArgs Scenario.repo true false) = Ok totals
    ∧ rows ≡ₚ selected_items (mkArgs Scenario.repo true false) totals
    ∧ format_table (rows ++ [("TOTAL", foldr Z.add 0 (List.map snd rows))]) = Ok table
    ∧ print ("C++            5" ++ nl ++ "Python         3" ++ nl ++ "TOTAL          8")
      = print table
    ∧ report_rows (mkArgs Scenario.repo true false) totals
      = (rows ++ [("TOTAL", foldr Z.add 0 (List.map snd rows))])%list.
Proof.
  apply (total_row_is_sum Scenario.four_files_world (mkArgs Scenario.repo true false)
           _ "").
  vm_compute. reflexivity.
Defined.

(** C8.  In the table that a run prints, the rows before the [TOTAL] row are
    the kept items of the totals in descending order of count, rows of equal
    count standing in the order in which the totals hold them (the order in
    which their languages were first met), and the [TOTAL] row is last. *)
Theorem rows_sorted_descending (w : World) (args : Args) (out err : string) :
  main w args = Exited 0 out err →
  ∃ (totals : Totals.t) (rows : list (string * Z)) (total : Z) (table : string),
    totals_of_run w args = Ok totals
    ∧ format_table (rows ++ [("TOTAL", total)]) = Ok table
    ∧ out = print table
    ∧ report_rows args totals = (rows ++ [("TOTAL", total)])%list
    ∧ rows ≡ₚ selected_items args totals
    ∧ StronglySorted count_ge rows
    ∧ (∀ c : Z, List.filter (λ r, snd r =? c) rows
                = List.filter (λ r, snd r =? c) (selected_items args totals)).
Proof.
  intros Hmain.
  destruct (main_prints_table _ _ _ _ Hmain) as (totals & table & Ht & _ & Hf & -> & _).
  exists totals, (sorted_desc (selected_items args totals)),
    (sum_lines (sorted_desc (selected_items args totals))), table.
  rewrite <- report_rows_shape.
  repeat split; try done.
  - apply sorted_desc_perm.
  - apply sorted_desc_sorted.
  - intros c. apply sorted_desc_stable.
Qed.

Lemma rows_sorted_descending_witness :
  ∃ (totals : Totals.t) (rows : list (string * Z)) (total : Z) (table : string),
    totals_of_run (Scenario.ties_world ["y.md"; "x.py"; "big.f90"; "z.c"])
                  (mkArgs Scenario.repo false false) = Ok totals
    ∧ format_table (rows ++ [("TOTAL", total)]) = Ok table
    ∧ print ("Fortran          7" ++ nl ++ "Markdown         2" ++ nl ++
             "Python           2" ++ nl ++ "C                2" ++ nl ++
             "TOTAL           13") = print table
    ∧ report_rows (mkArgs Scenario.repo false false) totals
      = (rows ++ [("TOTAL", total)])%list
    ∧ rows ≡ₚ selected_items (mkArgs Scenario.repo false false) totals
    ∧ StronglySorted count_ge rows
    ∧ (∀ c : Z, List.filter (λ r, snd r =? c) rows
                = List.filter (λ r, snd r =? c)
                    (selected_items (mkArgs Scenario.repo false false) totals)).
Proof.
  apply (rows_sorted_descending (Scenario.ties_world ["y.md"; "x.py"; "big.f90"; "z.c"])
           (mkArgs Scenario.repo false false) _ "").
  vm_compute. reflexivity.
Defined.

(** * The loop over the listed files *)

Section Loop.

Context (w : World) (args : Args) (root self_path : Path).

Abbreviation step :=
  (λ (acc : result Totals.t) (rel_path : Path),
     totals ← acc; count_file w args root self_path totals rel_path).

Lemma language_for_path_total (p : Path) : ∃ lang, language_for_path p = Ok lang.
Proof. rewrite language_for_path_refines. eauto. Qed.

(** A file that a check skips leaves the totals as they are. *)
Lemma count_file_skipped (totals : Totals.t) (p : Path) :
  file_checks w args root self_path p = Ok false →
  count_file w args root self_path totals p = Ok totals.
Proof.
  unfold file_checks, count_file.
  destruct (language_for_path_total p) as [lang ->]; simpl.
  destruct (lang_truthy lang) as [l|]; [|done].
  destruct (is_excluded w args self_path _) as [[|]|e]; [done| |done].
  by intros ->.
Qed.

(** The exception of a check leaves the loop body. *)
Lemma count_file_raises (totals : Totals.t) (p : Path) (e : exn) :
  file_checks w args root self_path p = Raise e →
  count_file w args root self_path totals p = Raise e.
Proof.
  unfold file_checks, count_file.
  destruct (language_for_path_total p) as [lang ->]; simpl.
  destruct (lang_truthy lang) as [l|]; [|done].
  destruct (is_excluded w args self_path _) as [[|]|e']; [done| |by intros [= ->]].
  by intros ->.
Qed.

Lemma tallied_checks (p : Path) :
  tallied w args root self_path p = true ↔ file_checks w args root self_path p = Ok true.
Proof.
  unfold tallied. destruct (file_checks w args root self_path p) as [[|]|e]; split; done.
Qed.

(** A file that is tallied is read, and its lines go to its language. *)
Lemma count_file_tallied (totals : Totals.t) (p : Path) :
  tallied w args root self_path p = true →
  ∃ lang, language_for_path p = Ok (Some lang)
    ∧ count_file w args root self_path totals p
      = (lines ← count_newlines w (PurePath.truediv root p);
         Ok (Totals.add lang lines totals)).
Proof.
  rewrite tallied_checks. unfold file_checks, count_file.
  destruct (language_for_path p) as [lang|e]; simpl; [|done].
  destruct lang as [lang|]; [|done].
  destruct (lang_truthy (Some lang)) as [l|] eqn:El; [|done].
  assert (l = lang) as ->.
  { destruct lang as [|c lang]; simpl in El; congruence. }
  destruct (is_excluded w args self_path _) as [[|]|e]; [done| |done].
  intros ->. by exists lang.
Qed.

(** A file that is not tallied is skipped, or one of its checks raises. *)
Lemma count_file_untallied (totals : Totals.t) (p : Path) :
  tallied w args root self_path p = false →
  count_file w args root self_path totals p = Ok totals
  ∨ ∃ e, count_file w args root self_path totals p = Raise e.
Proof.
  intros Ht. destruct (file_checks w args root self_path p) as [[|]|e] eqn:Hc.
  - apply tallied_checks in Hc. congruence.
  - left. by apply count_file_skipped.
  - right. exists e. by apply count_file_raises.
Qed.

Lemma foldl_step_raise (e : exn) (files : list Path) :
  foldl step (Raise e) files = Raise e.
Proof. induction files as [|p files IH]; simpl; [done|]. apply IH. Qed.

Lemma step_skipped (acc : result Totals.t) (p : Path) :
  file_checks w args root self_path p = Ok false → step acc p = acc.
Proof. intros H. destruct acc as [totals|e]; simpl; [by apply count_file_skipped|done]. Qed.

(** A listed file that a check skips may as well not be listed. *)
Lemma count_files_skip (before after : list Path) (p : Path) :
  file_checks w args root self_path p = Ok false →
  count_files w args root self_path (before ++ p :: after)%list
  = count_files w args root self_path (before ++ after)%list.
Proof.
  intros H. unfold count_files. rewrite !foldl_app. simpl.
  by rewrite step_skipped.
Qed.

Lemma add_not_empty (lang : string) (n : Z) (totals : Totals.t) :
  Totals.add lang n totals ≠ [].
Proof. destruct totals as [|[k v] totals]; simpl; [done|]. by case_match. Qed.

Lemma add_keys (lang : string) (n : Z) (totals : Totals.t) (k : string) :
  k ∈ List.map fst (Totals.add lang n totals) → k = lang ∨ k ∈ List.map fst totals.
Proof.
  induction totals as [|[k' v] totals IH]; simpl.
  - intros ->%list_elem_of_singleton. by left.
  - destruct (String.eqb k' lang) eqn:E; simpl; [by right|].
    intros [->|H]%elem_of_cons; [right; left|].
    destruct (IH H) as [->|?]; [by left|right; by right].
Qed.

(** The totals are empty exactly when no listed file is tallied. *)
Lemma foldl_step_empty (files : list Path) (acc totals : Totals.t) :
  foldl step (Ok acc) files = Ok totals →
  totals = [] ↔ acc = [] ∧ Forall (λ p, tallied w args root self_path p = false) files.
Proof.
  revert acc. induction files as [|p files IH]; intros acc; simpl.
  - intros [= ->]. split; [by split|by intros [? _]].
  - destruct (tallied w args root self_path p) eqn:Ht.
    + destruct (count_file_tallied acc p Ht) as (lang & _ & ->).
      destruct (count_newlines w (PurePath.truediv root p)) as [n|e]; simpl.
      * intros H. rewrite (IH _ H). split.
        -- intros [Hadd _]. by apply add_not_empty in Hadd.
        -- intros [_ HF]. inversion HF; congruence.
      * by rewrite foldl_step_raise.
    + destruct (count_file_untallied acc p Ht) as [->|[e ->]];
        [|by rewrite foldl_step_raise].
      intros H. rewrite (IH _ H).
      split; intros [? ?]; split; try done; [by constructor|by inversion H1].
Qed.

(** Every language of the totals is the language of a tallied file. *)
Lemma foldl_step_keys (files : list Path) (acc totals : Totals.t) (k : string) :
  foldl step (Ok acc) files = Ok totals →
  k ∈ List.map fst totals →
  k ∈ List.map fst acc
  ∨ ∃ p, p ∈ files ∧ tallied w args root self_path p = true
         ∧ language_for_path p = Ok (Some k).
Proof.
  revert acc. induction files as [|p files IH]; intros acc; simpl.
  - intros [= ->]. by left.
  - destruct (tallied w args root self_path p) eqn:Ht.
    + destruct (count_file_tallied acc p Ht) as (lang & Hlang & ->).
      destruct (count_newlines w (PurePath.truediv root p)) as [n|e]; simpl.
      * intros H Hk. destruct (IH _ H Hk) as [Hadd|(q & Hq & ?)].
        -- apply add_keys in Hadd as [->|?]; [|by left].
           right. exists p. split; [left|done].
        -- right. exists q. split; [by right|done].
      * by rewrite foldl_step_raise.
    + destruct (count_file_untallied acc p Ht) as [->|[e ->]];
        [|by rewrite foldl_step_raise].
      intros H Hk.
      destruct (IH _ H Hk) as [?|(q & Hq & ?)]; [by left|].
      right. exists q. split; [by right|done].
Qed.

End Loop.

(** * Files that are skipped *)

(** C1, as the program has it.  A listed file that is classified into a
    language and that [is_file] finds not to be a regular file (it has
    vanished since the listing, or it is a directory or another entry that
    is not a regular file) is skipped, when neither that check nor the test
    of the source file of the tool before it raises: the totals are those of
    the listing without it, and the run ends as the run in which it was
    never listed ends, with the same standard output, the same standard
    error and the same status. *)
Theorem missing_file_skipped (w : World) (args : Args)
    (run' : Path → list string → proc_outcome) (tree' : Path → node)
    (rt self_path : Path) (before after : list Path) (p : Path) (lang : string)
    (excluded : bool) :
  resolve w (root args) = Ok rt →
  resolve w (script_file w) = Ok self_path →
  list_files w rt = Ok (before ++ p :: after)%list →
  list_files (with_listing w run' tree') rt = Ok (before ++ after)%list →
  language_for_path p = Ok (Some lang) →
  is_excluded w args self_path (PurePath.truediv rt p) = Ok excluded →
  is_file w (PurePath.truediv rt p) = Ok false →
  count_files w args rt self_path (before ++ p :: after)%list
  = count_files w args rt self_path (before ++ after)%list
  ∧ main w args = main (with_listing w run' tree') args.
Proof.
  intros Hroot Hself Hlist Hlist' Hlang Hexcl Hfile.
  assert (Hskip : file_checks w args rt self_path p = Ok false).
  { unfold file_checks. rewrite Hlang. cbn [mbind result_bind].
    destruct (lang_truthy (Some lang)); [|done].
    rewrite Hexcl. by destruct excluded. }
  split; [by apply count_files_skip|].
  unfold main. cbn [with_listing resolve path_exists script_file].
  rewrite Hroot. destruct (path_exists w rt) as [[|]|e]; [|done..].
  rewrite Hself, Hlist, Hlist'. cbn [mbind result_bind].
  change (count_files (with_listing w run' tree')) with (count_files w).
  by rewrite count_files_skip.
Qed.

Lemma missing_file_skipped_witness :
  main Scenario.vanished_world (mkArgs Scenario.repo false false)
  = main (with_listing Scenario.vanished_world
            (λ _ _, Completed 0 (Scenario.listing ["a.py"])) (λ _, File))
         (mkArgs Scenario.repo false false).
Proof.
  apply (missing_file_skipped Scenario.vanished_world (mkArgs Scenario.repo false false)
           (λ _ _, Completed 0 (Scenario.listing ["a.py"])) (λ _, File)
           Scenario.repo Scenario.script
           [] [mkPath false ["a.py"]] (mkPath false ["gone.py"]) "Python" false);
    reflexivity.
Defined.

(** C1, as it is stated, fails: [secret.py] is listed, is classified as
    Python and is a regular file that cannot be opened; the error of the
    opening leaves [count_newlines] and [main], and the run aborts.  So does
    the run that lists [loop.py], a symbolic link to itself, which is not a
    regular file: [full_path.resolve()] raises before [is_file] is asked. *)
Lemma unreadable_file_aborts :
  (list_files Scenario.unreadable_world Scenario.repo
   = Ok [mkPath false ["secret.py"]; mkPath false ["a.py"]]
   ∧ language_for_path (mkPath false ["secret.py"]) = Ok (Some "Python")
   ∧ is_file Scenario.unreadable_world (Scenario.in_repo ["secret.py"]) = Ok true
   ∧ open_rb Scenario.unreadable_world (Scenario.in_repo ["secret.py"])
     = Raise (OSError "Permission denied")
   ∧ count_newlines Scenario.unreadable_world (Scenario.in_repo ["secret.py"])
     = Raise (OSError "Permission denied")
   ∧ main Scenario.unreadable_world (mkArgs Scenario.repo false false)
     = Crashed (OSError "Permission denied"))
  ∧ (list_files RaisingScenarios.loop_world Scenario.repo
     = Ok [mkPath false ["loop.py"]; mkPath false ["a.py"]]
     ∧ language_for_path (mkPath false ["loop.py"]) = Ok (Some "Python")
     ∧ is_file RaisingScenarios.loop_world (Scenario.in_repo ["loop.py"]) = Ok false
     ∧ resolve RaisingScenarios.loop_world (Scenario.in_repo ["loop.py"])
       = Raise (RuntimeError "Symlink loop")
     ∧ main RaisingScenarios.loop_world (mkArgs Scenario.repo false false)
       = Crashed (RuntimeError "Symlink loop")).
Proof. repeat split; vm_compute; reflexivity. Qed.

(** * Exit statuses *)

Section ExitStatus.

Context (w : World) (args : Args).

Lemma totals_of_run_counts (rt self_path : Path) (files : list Path) :
  resolve w (root args) = Ok rt →
  resolve w (script_file w) = Ok self_path →
  list_files w rt = Ok files →
  totals_of_run w args = count_files w args rt self_path files.
Proof.
  intros Hrt Hself Hfiles. unfold totals_of_run.
  rewrite Hrt. cbn [mbind result_bind]. rewrite Hself. cbn [mbind result_bind].
  by rewrite Hfiles.
Qed.

Lemma main_of_totals (rt : Path) (totals : Totals.t) :
  resolve w (root args) = Ok rt →
  path_exists w rt = Ok true →
  totals_of_run w args = Ok totals →
  main w args
  = if Totals.truthy totals
    then match format_table (report_rows args totals) with
         | Ok table => Exited 0 (print table) ""
         | Raise e => Crashed e
         end
    else Exited 1 (print "No matching files found.") "".
Proof.
  intros Hrt Hroot. unfold main, totals_of_run. rewrite Hrt, Hroot.
  cbn [mbind result_bind]. intros ->. by destruct (Totals.truthy totals).
Qed.

Lemma report_rows_not_empty (totals : Totals.t) : report_rows args totals ≠ [].
Proof. rewrite report_rows_shape. by destruct (sorted_desc _). Qed.

Lemma existsb_tallied (base self_path : Path) (files : list Path) :
  existsb (tallied w args base self_path) files = false
  ↔ Forall (λ p, tallied w args base self_path p = false) files.
Proof.
  induction files as [|p files IH]; simpl; [by split|].
  rewrite orb_false_iff, IH, Forall_cons. done.
Qed.

End ExitStatus.

(** C4, as the program has it.  The status is 2, with a diagnostic on
    standard error and nothing on standard output, when the root is resolved
    and [exists] answers that it does not exist.  When it answers that the
    root exists, and the resolving of the source file of the tool, the
    listing and the counting raise nothing, the status is 0 and a table is
    printed when at least one listed file is tallied (classified into a
    language, not the excluded source file of the tool, and a regular file),
    and otherwise the status is 1 and exactly [No matching files found.] is
    printed to standard output; the latter is so, in particular, when no
    listed file is classified. *)
Theorem exit_statuses (w : World) (args : Args) (rt : Path) :
  resolve w (root args) = Ok rt →
  (path_exists w rt = Ok false →
     main w args
     = Exited 2 "" (print ("error: root does not exist: " ++ PurePath.as_posix rt)))
  ∧ (path_exists w rt = Ok true →
     ∀ (self_path : Path) (files : list Path),
       resolve w (script_file w) = Ok self_path →
       list_files w rt = Ok files →
       (Forall (λ p, language_for_path p = Ok None) files →
          main w args = Exited 1 (print "No matching files found.") "")
       ∧ (∀ totals : Totals.t,
            count_files w args rt self_path files = Ok totals →
            if existsb (tallied w args rt self_path) files
            then ∃ table : string, main w args = Exited 0 (print table) ""
            else main w args = Exited 1 (print "No matching files found.") "")).
Proof.
  intros Hrt. split.
  - intros Hroot. unfold main. by rewrite Hrt, Hroot.
  - intros Hroot self_path files Hself Hfiles.
    assert (Hcount : ∀ totals,
      count_files w args rt self_path files = Ok totals →
      if existsb (tallied w args rt self_path) files
      then ∃ table : string, main w args = Exited 0 (print table) ""
      else main w args = Exited 1 (print "No matching files found.") "").
    { intros totals Hcount.
      assert (Hrun : totals_of_run w args = Ok totals).
      { by rewrite (totals_of_run_counts w args rt self_path files Hrt Hself Hfiles). }
      rewrite (main_of_totals w args rt totals Hrt Hroot Hrun).
      pose proof (foldl_step_empty w args _ _ files [] totals Hcount) as Hempty.
      destruct (existsb _ files) eqn:Hex.
      - destruct totals as [|item totals].
        + destruct Hempty as [Hempty _]. destruct (Hempty eq_refl) as [_ HF].
          apply existsb_tallied in HF. congruence.
        + simpl.
          destruct (format_table_ok (report_rows args (item :: totals))
                      (report_rows_not_empty args _)) as [table ->].
          by exists table.
      - apply existsb_tallied in Hex.
        destruct Hempty as [_ Hempty]. by rewrite (Hempty (conj eq_refl Hex)). }
    split; [|exact Hcount].
    intros Hnone.
    assert (Hchecks : Forall (λ p, file_checks w args rt self_path p = Ok false) files).
    { eapply Forall_impl; [exact Hnone|]. intros p Hp. unfold file_checks. by rewrite Hp. }
    assert (Hc : count_files w args rt self_path files = Ok []).
    { unfold count_files. clear -Hchecks.
      induction Hchecks as [|p files Hp _ IH]; simpl; [done|].
      by rewrite count_file_skipped. }
    specialize (Hcount [] Hc).
    assert (HF : existsb (tallied w args rt self_path) files = false).
    { apply existsb_tallied. eapply Forall_impl; [exact Hchecks|].
      intros p Hp. unfold tallied. by rewrite Hp. }
    by rewrite HF in Hcount.
Qed.

Lemma exit_statuses_witness :
  main Scenario.four_files_world (mkArgs (mkPath true ["nonexistent"]) false false)
  = Exited 2 "" (print "error: root does not exist: /nonexistent")
  ∧ main Scenario.deleted_readme_world (mkArgs Scenario.repo false false)
    = Exited 1 (print "No matching files found.") "".
Proof.
  split.
  - apply (proj1 (exit_statuses Scenario.four_files_world
                    (mkArgs (mkPath true ["nonexistent"]) false false)
                    (mkPath true ["nonexistent"]) eq_refl)).
    reflexivity.
  - apply (proj2 (proj2 (exit_statuses Scenario.deleted_readme_world
                           (mkArgs Scenario.repo false false) Scenario.repo eq_refl)
                    eq_refl Scenario.script [mkPath false ["README.md"]] eq_refl eq_refl)
             [] eq_refl).
Defined.

(** C4, as it is stated, fails.  The only listed file is the source file of
    the tool, it is classified as Python, and the status is 1, not 0.  And a
    root that does not exist, whose name is too long for [exists] to answer,
    ends the run with the error of [exists] and the status 1 of an
    exception that is not caught, not with the status 2. *)
Lemma classified_file_status_one :
  (path_exists Scenario.self_only_world Scenario.repo = Ok true
   ∧ list_files Scenario.self_only_world Scenario.repo
     = Ok [mkPath false ["tools"; "loc_by_language.py"]]
   ∧ language_for_path (mkPath false ["tools"; "loc_by_language.py"]) = Ok (Some "Python")
   ∧ main Scenario.self_only_world (mkArgs Scenario.repo false false)
     = Exited 1 (print "No matching files found.") ""
   ∧ exit_code (main Scenario.self_only_world (mkArgs Scenario.repo false false)) ≠ 0)
  ∧ (resolve RaisingScenarios.long_root_world RaisingScenarios.long_root
     = Ok RaisingScenarios.long_root
     ∧ path_exists RaisingScenarios.long_root_world RaisingScenarios.long_root
       = Raise (OSError "File name too long")
     ∧ main RaisingScenarios.long_root_world
            (mkArgs RaisingScenarios.long_root false false)
       = Crashed (OSError "File name too long")
     ∧ exit_code (main RaisingScenarios.long_root_world
                       (mkArgs RaisingScenarios.long_root false false)) ≠ 2).
Proof. repeat split; vm_compute; (reflexivity || discriminate). Qed.

(** * [--code-only] without code *)

Lemma filter_none {A : Type} (f : A → bool) (l : list A) :
  (∀ x, In x l → f x = false) → List.filter f l = [].
Proof.
  induction l as [|a l IH]; simpl; [done|]. intros H.
  rewrite (H a) by by left. apply IH. intros x Hx. apply H. by right.
Qed.

Lemma no_code_selected (w : World) (args : Args) (base self_path : Path)
    (files : list Path) (totals : Totals.t) :
  code_only args = true →
  count_files w args base self_path files = Ok totals →
  forallb (λ p, negb (tallied w args base self_path p && code_file p)) files = true →
  selected_items args totals = [].
Proof.
  intros Hflag Hcount Hnone. unfold selected_items. rewrite Hflag.
  apply filter_none.
  intros [k v] Hin. simpl.
  apply bool_decide_eq_false_2. intros Hcode.
  assert (Hk : k ∈ List.map fst totals).
  { apply list_elem_of_In, in_map_iff. by exists (k, v). }
  destruct (foldl_step_keys w args base self_path files [] totals k Hcount Hk)
    as [Hnil|(p & Hp & Htal & Hlang)].
  { by apply elem_of_nil in Hnil. }
  rewrite forallb_forall in Hnone.
  apply list_elem_of_In in Hp. specialize (Hnone p Hp).
  unfold code_file in Hnone. rewrite Htal, Hlang in Hnone. simpl in Hnone.
  by rewrite bool_decide_eq_true_2 in Hnone.
Qed.

(** C10, as the program has it.  The totals are tested for emptiness before
    the [--code-only] filter.  In a run with [--code-only] whose root exists
    and whose listing and counting raise nothing, when at least one listed
    file is tallied (classified into a language, not the excluded source
    file of the tool, and a regular file) and no tallied file is of a code
    language, the status is 0 and the output is the table of the single row
    [TOTAL] with the count 0, not the message of the empty case. *)
Theorem code_only_without_code (w : World) (args : Args) (rt self_path : Path)
    (files : list Path) (totals : Totals.t) :
  code_only args = true →
  resolve w (root args) = Ok rt →
  path_exists w rt = Ok true →
  resolve w (script_file w) = Ok self_path →
  list_files w rt = Ok files →
  count_files w args rt self_path files = Ok totals →
  existsb (tallied w args rt self_path) files = true →
  forallb (λ p, negb (tallied w args rt self_path p && code_file p)) files = true →
  totals ≠ []
  ∧ report_rows args totals = [("TOTAL", 0)]
  ∧ main w args = Exited 0 (print "TOTAL         0") ""
  ∧ exit_code (main w args) = 0.
Proof.
  intros Hflag Hrt Hroot Hself Hfiles Hcount Hsome Hnone.
  assert (Hne : totals ≠ []).
  { intros ->.
    destruct (foldl_step_empty w args _ _ files [] [] Hcount) as [H _].
    destruct (H eq_refl) as [_ HF]. apply existsb_tallied in HF. congruence. }
  assert (Hrows : report_rows args totals = [("TOTAL", 0)]).
  { rewrite report_rows_shape.
    by rewrite (no_code_selected w args _ _ files totals Hflag Hcount Hnone). }
  assert (Hmain : main w args = Exited 0 (print "TOTAL         0") "").
  { rewrite (main_of_totals w args rt totals Hrt Hroot);
      [|by rewrite (totals_of_run_counts w args rt self_path files Hrt Hself Hfiles)].
    destruct totals as [|item totals]; [done|]. simpl. by rewrite Hrows. }
  repeat split; try done. by rewrite Hmain.
Qed.

Lemma code_only_without_code_witness :
  main Scenario.docs_world (mkArgs Scenario.repo true false)
  = Exited 0 (print "TOTAL         0") "".
Proof.
  apply (code_only_without_code Scenario.docs_world (mkArgs Scenario.repo true false)
           Scenario.repo Scenario.script
           [mkPath false ["README.md"]; mkPath false ["notes.txt"]]
           [("Markdown", 2); ("Text", 0)]); reflexivity.
Defined.

(** C10, as it is stated, fails: in a run with [--code-only], [README.md] is
    listed and is classified as Markdown, which is not a code language, and
    it is no longer a regular file; the totals are empty, the message of the
    empty case is printed and the status is 1. *)
Lemma code_only_classified_status_one :
  list_files Scenario.deleted_readme_world Scenario.repo = Ok [mkPath false ["README.md"]]
  ∧ language_for_path (mkPath false ["README.md"]) = Ok (Some "Markdown")
  ∧ code_file (mkPath false ["README.md"]) = false
  ∧ main Scenario.deleted_readme_world (mkArgs Scenario.repo true false)
    = Exited 1 (print "No matching files found.") ""
  ∧ exit_code (main Scenario.deleted_readme_world (mkArgs Scenario.repo true false)) ≠ 0.
Proof. repeat split; vm_compute; (reflexivity || discriminate). Qed.

(** * The file lister *)

Section Walk.

(** Induction on a tree, with the hypothesis for every entry of a
    directory. *)
Lemma node_nested_ind (P : node → Prop) :
  P File →
  (∀ entries, Forall (λ e, P (snd e)) entries → P (Dir entries)) →
  ∀ n, P n.
Proof.
  intros HFile HDir. fix IH 1. intros [|entries]; [exact HFile|].
  apply HDir. induction entries as [|[nm d] entries IHentries]; constructor.
  - apply IH.
  - exact IHentries.
Qed.

Lemma strip_prefix_app (pre rest : list string) :
  strip_prefix pre (pre ++ rest) = Some rest.
Proof. induction pre as [|a pre IH]; simpl; [done|]. by rewrite String.eqb_refl. Qed.

Lemma relative_to_child (base : Path) (pre : list string) (nm : string) :
  relative_to (PurePath.child (mkPath (absolute base) (parts base ++ pre)) nm) base
  = Ok (mkPath false (pre ++ [nm])).
Proof.
  unfold relative_to, PurePath.child. cbn [absolute parts].
  by rewrite Bool.eqb_reflx, <- app_assoc, strip_prefix_app.
Qed.

Lemma list_remove_absent (x : string) (l : list string) :
  x ∉ l → List.filter (λ y, negb (String.eqb y x)) l = l.
Proof.
  induction l as [|y l IH]; simpl; [done|].
  intros [Hne Hl]%not_elem_of_cons.
  destruct (String.eqb y x) eqn:E; simpl.
  - apply String.eqb_eq in E. congruence.
  - by rewrite IH.
Qed.

(** On a list without duplicates, removing [x] when it is there is
    filtering it out. *)
Lemma list_remove_filter (x : string) (l : list string) :
  NoDup l →
  (if bool_decide (x ∈ l) then list_remove x l else l)
  = List.filter (λ y, negb (String.eqb y x)) l.
Proof.
  intros Hl. case_bool_decide as Hin.
  - induction Hl as [|y l Hy Hl IH]; [by apply elem_of_nil in Hin|].
    simpl. destruct (String.eqb y x) eqn:E; simpl.
    + apply String.eqb_eq in E. subst y. by rewrite list_remove_absent.
    + apply String.eqb_neq in E. apply elem_of_cons in Hin as [->|Hin]; [done|].
      by rewrite IH.
  - by rewrite list_remove_absent.
Qed.

Lemma dirnames_subset (entries : list (string * node)) (nm : string) :
  nm ∈ os.dirnames entries → nm ∈ List.map fst entries.
Proof.
  unfold os.dirnames. induction entries as [|[k d] entries IH]; simpl; [done|].
  destruct (os.is_dir d); simpl.
  - intros [->|H]%elem_of_cons; [left|right; by apply IH].
  - intros H. right. by apply IH.
Qed.

Lemma dirnames_NoDup (entries : list (string * node)) :
  NoDup (List.map fst entries) → NoDup (os.dirnames entries).
Proof.
  unfold os.dirnames. induction entries as [|[k d] entries IH]; simpl; [done|].
  intros [Hk Hes]%NoDup_cons. destruct (os.is_dir d); simpl; [|by apply IH].
  apply NoDup_cons. split; [|by apply IH].
  intros H. by apply dirnames_subset in H.
Qed.

Lemma assoc_entries {A : Type} (f : string * node → A)
    (entries : list (string * node)) (nm : string) (d : node) :
  NoDup (List.map fst entries) →
  (nm, d) ∈ entries →
  os.assoc nm (List.map (λ e, (fst e, f e)) entries) = Some (f (nm, d)).
Proof.
  induction entries as [|[k d'] entries IH]; simpl.
  - intros _ H. by apply elem_of_nil in H.
  - intros [Hk Hes]%NoDup_cons [[= -> ->]|Hin]%elem_of_cons.
    + by rewrite String.eqb_refl.
    + destruct (String.eqb k nm) eqn:E; [|by apply IH].
      apply String.eqb_eq in E. subst k. exfalso. apply Hk.
      apply list_elem_of_In, in_map_iff. exists (nm, d). split; [done|].
      by apply list_elem_of_In.
Qed.

Lemma walk_Dir {S : Type}
    (body : Path → list string → list string → S → result (list string * S))
    (top : Path) (entries : list (string * node)) (budget : option nat) (s : S) :
  budget ≠ Some 0%nat →
  os.walk body top (Dir entries) budget s
  = ('(dirs, s1) ← body top (os.dirnames entries) (os.filenames entries) s;
     foldl (λ acc nm,
              s' ← acc;
              default Ok
                (os.assoc nm
                   (List.map (λ e, (fst e, os.walk body (PurePath.child top (fst e)) (snd e)
                                             (os.deeper budget)))
                             entries)) s')
           (Ok s1) dirs).
Proof.
  intros Hbudget. cbn [os.walk].
  assert (H : ∀ es,
    (fix below (es : list (string * node)) : list (string * (S → result S)) :=
       match es with
       | [] => []
       | (nm, d) :: es' =>
           (nm, os.walk body (PurePath.child top nm) d (os.deeper budget)) :: below es'
       end) es
    = List.map (λ e, (fst e, os.walk body (PurePath.child top (fst e)) (snd e)
                               (os.deeper budget))) es).
  { induction es as [|[nm d] es IH]; simpl; [done|]. by rewrite IH. }
  destruct budget as [[|k]|]; [done| |]; by rewrite H.
Qed.

Lemma foldl_bind_raise {A S : Type} (f : A → S → result S) (e : exn) (l : list A) :
  foldl (λ acc a, s' ← acc; f a s') (Raise e) l = Raise e.
Proof. induction l as [|a l IH]; simpl; [done|]. apply IH. Qed.

Lemma max_le_forallb (xs : list nat) (k : nat) :
  (foldr Nat.max 0%nat xs <=? k)%nat = forallb (λ x, (x <=? k)%nat) xs.
Proof.
  induction xs as [|x xs IH]; simpl; [done|]. rewrite <- IH.
  apply eq_true_iff_eq. rewrite andb_true_iff, !Nat.leb_le. lia.
Qed.

Lemma within_limit_Dir (budget : option nat) (entries : list (string * node)) :
  budget ≠ Some 0%nat →
  within_limit budget (Dir entries) = forallb (entry_within (os.deeper budget)) entries.
Proof.
  intros Hbudget. destruct budget as [[|k]|]; [done| |].
  - cbn [within_limit walk_depth os.deeper]. change (S ?a <=? S k)%nat with (a <=? k)%nat.
    rewrite max_le_forallb. induction entries as [|e entries IH]; [done|].
    cbn [List.map forallb]. rewrite IH. f_equal.
    unfold entry_within. by destruct (os.is_dir (snd e) && negb (String.eqb (fst e) ".git")).
  - cbn [within_limit os.deeper]. symmetry. apply forallb_forall. intros e _.
    unfold entry_within. by destruct (os.is_dir (snd e) && negb (String.eqb (fst e) ".git")).
Qed.

Lemma walk_body_files (base : Path) (pre : list string) (names : list string)
    (out : list Path) :
  foldl (λ acc filename,
           out ← acc;
           let full := PurePath.child (mkPath (absolute base) (parts base ++ pre)) filename in
           rel ← relative_to full base;
           Ok (out ++ [rel])%list)
        (Ok out) names
  = Ok (out ++ List.map (λ nm, mkPath false (pre ++ [nm])) names)%list.
Proof.
  revert out. induction names as [|nm names IH]; intros out; simpl.
  - by rewrite app_nil_r.
  - rewrite relative_to_child. simpl. rewrite IH. by rewrite <- app_assoc.
Qed.

Lemma walk_body_ok (base : Path) (pre : list string) (entries : list (string * node))
    (out : list Path) :
  NoDup (List.map fst entries) →
  walk_body base (mkPath (absolute base) (parts base ++ pre))
    (os.dirnames entries) (os.filenames entries) out
  = Ok (List.filter (λ nm, negb (String.eqb nm ".git")) (os.dirnames entries),
        (out ++ List.map (λ nm, mkPath false (pre ++ [nm])) (os.filenames entries))%list).
Proof.
  intros Hnd. unfold walk_body.
  rewrite walk_body_files. simpl.
  by rewrite list_remove_filter by by apply dirnames_NoDup.
Qed.

(** The manual walk, exactly: on a tree that it stays within the budget
    of, it appends the visible files in their order; on a deeper one it
    raises [RecursionError]. *)
Lemma walk_visible (base : Path) (n : node) :
  ∀ (budget : option nat) (pre : list string) (out : list Path),
    names_distinct n = true →
    os.walk (walk_body base) (mkPath (absolute base) (parts base ++ pre)) n budget out
    = if within_limit budget n
      then Ok (out ++ List.map (λ rel, mkPath false (pre ++ rel)) (visible_files n))%list
      else Raise RecursionError.
Proof.
  induction n as [|entries IH] using node_nested_ind; intros budget pre out Hn.
  - simpl. rewrite app_nil_r. by destruct budget as [[|k]|].
  - destruct (decide (budget = Some 0%nat)) as [->|Hbudget]; [done|].
    rewrite walk_Dir, within_limit_Dir by done.
    cbn [names_distinct] in Hn. apply andb_true_iff in Hn as [Hnd Hsub].
    apply bool_decide_eq_true_1 in Hnd.
    rewrite walk_body_ok by done. cbn [mbind result_bind].
    cbn [visible_files]. fold below_files.
    rewrite List.map_app, List.map_map, app_assoc.
    generalize (out ++ List.map (λ x, mkPath false (pre ++ [x])) (os.filenames entries))%list.
    assert (Hes : ∀ es : list (string * node), (∀ e, e ∈ es → e ∈ entries) →
      ∀ l : list Path,
        foldl (λ acc nm,
                 s' ← acc;
                 default Ok
                   (os.assoc nm
                      (List.map
                         (λ e, (fst e,
                                os.walk (walk_body base)
                                  (PurePath.child
                                     (mkPath (absolute base) (parts base ++ pre)) (fst e))
                                  (snd e) (os.deeper budget)))
                         entries)) s')
              (Ok l)
              (List.filter (λ nm, negb (String.eqb nm ".git")) (os.dirnames es))
        = if forallb (entry_within (os.deeper budget)) es
          then Ok (l ++ List.map (λ rel, mkPath false (pre ++ rel))
                                 (flat_map below_files es))%list
          else Raise RecursionError).
    { induction es as [|[nm d] es IHes]; intros Hin l.
      - simpl. by rewrite app_nil_r.
      - assert (Hhere : (nm, d) ∈ entries) by (apply Hin; left).
        assert (Hrest : ∀ e, e ∈ es → e ∈ entries) by (intros e He; apply Hin; by right).
        specialize (IHes Hrest).
        unfold os.dirnames in *. cbn [List.filter flat_map List.map forallb].
        unfold below_files at 1. unfold entry_within at 1.
        cbn [fst snd].
        destruct d as [|sub]; cbn [os.is_dir negb andb List.map List.filter app fst];
          [apply IHes|].
        destruct (String.eqb nm ".git") eqn:Egit; cbn [negb List.map List.filter app foldl];
          [apply IHes|].
        rewrite (assoc_entries _ entries nm (Dir sub) Hnd Hhere).
        assert (Hstep : ∀ l : list Path,
          os.walk (walk_body base)
            (PurePath.child (mkPath (absolute base) (parts base ++ pre)) nm) (Dir sub)
            (os.deeper budget) l
          = if within_limit (os.deeper budget) (Dir sub)
            then Ok (l ++ List.map (λ rel, mkPath false (pre ++ nm :: rel))
                                   (visible_files (Dir sub)))%list
            else Raise RecursionError).
        { intros l'. rewrite Forall_forall in IH. specialize (IH _ Hhere). cbn [snd] in IH.
          unfold PurePath.child. cbn [absolute parts]. rewrite <- app_assoc.
          rewrite IH.
          - destruct (within_limit (os.deeper budget) (Dir sub)); [|done].
            do 2 f_equal. apply List.map_ext. intros rel. by rewrite <- app_assoc.
          - rewrite forallb_forall in Hsub.
            apply (Hsub (nm, Dir sub)). by apply list_elem_of_In. }
        cbn [mbind result_bind default from_option id fst snd].
        rewrite Hstep.
        destruct (within_limit (os.deeper budget) (Dir sub)); cbn [andb].
        + rewrite IHes. destruct (forallb _ es); [|done]. f_equal.
          by rewrite List.map_app, List.map_map, app_assoc.
        + apply (foldl_bind_raise
                   (λ nm s', default Ok (os.assoc nm _) s')). }
    apply Hes. done.
Qed.

Lemma filenames_spec (entries : list (string * node)) (nm : string) :
  nm ∈ os.filenames entries ↔ (nm, File) ∈ entries.
Proof.
  unfold os.filenames. induction entries as [|[k d] entries IH]; simpl.
  - split; intros H; by apply elem_of_nil in H.
  - destruct d as [|sub]; simpl.
    + rewrite !elem_of_cons, IH. split; intros [H|H]; auto; left; congruence.
    + rewrite elem_of_cons, IH. split; [auto|]. by intros [?|?].
Qed.

Lemma visible_reachable (n : node) :
  ∀ rel : list string, rel ∈ visible_files n ↔ reachable_file n rel.
Proof.
  intros rel. split.
  - revert rel. induction n as [|entries IH] using node_nested_ind; intros rel.
    + intros H. by apply elem_of_nil in H.
    + cbn [visible_files]. fold below_files.
      intros [H|H]%elem_of_app.
      * apply list_elem_of_In, in_map_iff in H as (nm & <- & Hnm).
        apply reachable_here, filenames_spec. by apply list_elem_of_In.
      * apply list_elem_of_In, in_flat_map in H as ([nm d] & He & Hrel).
        unfold below_files in Hrel. cbn [fst snd] in Hrel.
        destruct d as [|sub]; [done|]. cbn [os.is_dir andb] in Hrel.
        destruct (String.eqb nm ".git") eqn:Egit; [done|].
        apply String.eqb_neq in Egit. cbn [negb] in Hrel.
        apply in_map_iff in Hrel as (rel' & <- & Hrel').
        apply list_elem_of_In in He.
        rewrite Forall_forall in IH.
        apply (reachable_below entries sub); [done..|].
        apply (IH _ He). by apply list_elem_of_In.
  - induction 1 as [entries nm Hin|entries sub nm rel Hin Hgit _ IH].
    + cbn [visible_files]. apply elem_of_app. left.
      apply list_elem_of_In, in_map_iff. exists nm. split; [done|].
      by apply list_elem_of_In, filenames_spec.
    + cbn [visible_files]. apply elem_of_app. right.
      apply list_elem_of_In, in_flat_map. exists (nm, Dir sub).
      split; [by apply list_elem_of_In|].
      cbn [fst snd os.is_dir andb]. apply String.eqb_neq in Hgit. rewrite Hgit.
      cbn [negb]. apply in_map, list_elem_of_In, IH.
Qed.

End Walk.

(** C7, the claim as it is written fails on two runs.  An [rg] that is
    there and cannot be executed is unavailable, and the lister does not
    go on to [git], which would list [a.py]: the [PermissionError] of
    [subprocess.run] is neither of the two exceptions that are caught, and
    it leaves [list_files].  And with neither tool found, the manual walk of
    a tree that is deeper than the interpreter can recurse raises
    [RecursionError] and yields no path. *)
Lemma list_files_tool_not_executable :
  run_process RaisingScenarios.rg_not_executable_world Scenario.repo ["git"; "ls-files"; "-z"]
  = Completed 0 (Scenario.listing ["a.py"])
  ∧ list_files RaisingScenarios.rg_not_executable_world Scenario.repo
    = Raise (OSError "Permission denied")
  ∧ listing_failed
      (run_process RaisingScenarios.deep_world Scenario.repo ["rg"; "--files"; "-0"]) = true
  ∧ listing_failed
      (run_process RaisingScenarios.deep_world Scenario.repo ["git"; "ls-files"; "-z"]) = true
  ∧ reachable_file (tree_at RaisingScenarios.deep_world Scenario.repo) ["a.py"]
  ∧ list_files RaisingScenarios.deep_world Scenario.repo = Raise RecursionError.
Proof.
  repeat split; try (vm_compute; reflexivity).
  apply reachable_here. vm_compute. left.
Qed.

(** C7, amended.  The lister tries its strategies in a fixed order and the
    first that succeeds gives the list: the paths that [rg --files -0]
    prints when it runs and exits with 0; when [rg] is not found or exits
    with another status, the paths that [git ls-files -z] prints when it runs
    and exits with 0; when both fail in one of these two ways, the manual
    walk from the root, which on a tree that is not deeper than the
    interpreter can recurse gives, relative to the root, the path of every
    file that is met without entering a directory named [.git], and no other
    path. *)
Theorem list_files_strategies (w : World) (base : Path) :
  (∀ out : list byte,
     run_process w base ["rg"; "--files"; "-0"] = Completed 0 out →
     list_files w base = Ok (paths_of_listing out))
  ∧ (listing_failed (run_process w base ["rg"; "--files"; "-0"]) = true →
     ∀ out : list byte,
       run_process w base ["git"; "ls-files"; "-z"] = Completed 0 out →
       list_files w base = Ok (paths_of_listing out))
  ∧ (listing_failed (run_process w base ["rg"; "--files"; "-0"]) = true →
     listing_failed (run_process w base ["git"; "ls-files"; "-z"]) = true →
     names_distinct (tree_at w base) = true →
     within_limit (recursion_limit w) (tree_at w base) = true →
     list_files w base = Ok (List.map (mkPath false) (visible_files (tree_at w base)))
     ∧ ∀ rel : list string,
         rel ∈ visible_files (tree_at w base) ↔ reachable_file (tree_at w base) rel).
Proof.
  assert (Hfail : ∀ command,
    listing_failed (run_process w base command) = true →
    run_file_list_command w base command = Ok None).
  { intros command. unfold listing_failed, run_file_list_command.
    destruct (run_process w base command) as [rc out| |e]; [|done..].
    by intros ->%negb_true_iff. }
  assert (Hok : ∀ command out,
    run_process w base command = Completed 0 out →
    run_file_list_command w base command = Ok (Some (paths_of_listing out))).
  { intros command out H. unfold run_file_list_command. by rewrite H. }
  split; [|split].
  - intros out Hrg. unfold list_files. by rewrite (Hok _ _ Hrg).
  - intros Hrg out Hgit. unfold list_files.
    rewrite (Hfail _ Hrg). simpl. by rewrite (Hok _ _ Hgit).
  - intros Hrg Hgit Htree Hdepth. split; [|apply visible_reachable].
    unfold list_files. rewrite (Hfail _ Hrg). simpl. rewrite (Hfail _ Hgit). simpl.
    pose proof (walk_visible base (tree_at w base) (recursion_limit w) [] [] Htree) as Hwalk.
    rewrite Hdepth, app_nil_r in Hwalk. destruct base as [abs ps]. exact Hwalk.
Qed.

Lemma list_files_strategies_witness :
  list_files (with_limit (Scenario.world ExecNotFound (Completed 128 []) Scenario.tree []) 3)
    Scenario.repo
  = Ok (List.map (mkPath false)
          [ ["a.py"]; ["z.txt"]; ["src"; "b.cpp"]; ["src"; "d"; "e.md"] ])
  ∧ list_files (Scenario.world (Completed 2 []) (Completed 0 (Scenario.listing ["a/b.py"]))
                  Scenario.tree []) Scenario.repo
    = Ok [mkPath false ["a"; "b.py"]].
Proof.
  split.
  - apply (proj2 (proj2 (list_files_strategies
       (with_limit (Scenario.world ExecNotFound (Completed 128 []) Scenario.tree []) 3)
       Scenario.repo))).
    all: vm_compute; reflexivity.
  - apply (proj1 (proj2 (list_files_strategies
       (Scenario.world (Completed 2 []) (Completed 0 (Scenario.listing ["a/b.py"]))
          Scenario.tree []) Scenario.repo)) eq_refl (Scenario.listing ["a/b.py"]) eq_refl).
Defined.


(** * More on the aggregator: what the totals hold *)

Section TotalsFacts.

Context (w : World) (args : Args) (base self_path : Path).

Abbreviation tally_step :=
  (λ (acc : result Totals.t) (rel_path : Path),
     totals ← acc; count_file w args base self_path totals rel_path).

Abbreviation add_tally := (λ (t : Totals.t) (x : string * Z), Totals.add (fst x) (snd x) t).

(** The loop over the files is the accumulation of what they bring. *)
Lemma foldl_step_tallies (files : list Path) (acc totals : Totals.t) :
  foldl tally_step (Ok acc) files = Ok totals →
  totals = foldl add_tally acc (tallies w args base self_path files).
Proof.
  revert acc. induction files as [|p files IH]; intros acc; simpl.
  - by intros [= ->].
  - unfold tallies. cbn [omap list_omap]. fold (tallies w args base self_path files).
    unfold tally_of at 1.
    destruct (tallied w args base self_path p) eqn:Ht.
    + destruct (count_file_tallied w args base self_path acc p Ht) as (lang & Hlang & ->).
      rewrite Hlang.
      destruct (count_newlines w (PurePath.truediv base p)) as [n|e]; simpl.
      * apply IH.
      * by rewrite foldl_step_raise.
    + destruct (count_file_untallied w args base self_path acc p Ht) as [->|[e ->]];
        [apply IH|by rewrite foldl_step_raise].
Qed.

End TotalsFacts.

Section TotalsAlgebra.

Implicit Types (t : Totals.t) (ts : list (string * Z)) (lang k : string) (n : Z).

Abbreviation add_pair := (λ (t : Totals.t) (x : string * Z), Totals.add (fst x) (snd x) t).

(** [totals[lang] += n] read back: the value at [lang] has grown by [n]
    from its old value, or from [0], and no other key has changed. *)
Lemma assoc_add lang n t k :
  os.assoc k (Totals.add lang n t)
  = if String.eqb k lang then Some (default 0 (os.assoc lang t) + n) else os.assoc k t.
Proof.
  induction t as [|[k' v] t IH]; simpl.
  - rewrite String.eqb_sym. by destruct (String.eqb k lang).
  - destruct (String.eqb k' lang) eqn:E; simpl.
    + apply String.eqb_eq in E. subst k'.
      rewrite (String.eqb_sym lang k). by destruct (String.eqb k lang).
    + rewrite IH. destruct (String.eqb k' k) eqn:E'; [|done].
      apply String.eqb_eq in E'. subst k'. by rewrite E.
Qed.

Lemma assoc_foldl_add ts t k :
  os.assoc k (foldl add_pair t ts)
  = if existsb (λ x, String.eqb (fst x) k) ts
    then Some (default 0 (os.assoc k t) + lines_for k ts)
    else os.assoc k t.
Proof.
  revert t. induction ts as [|[lang n] ts IH]; intros t; [done|].
  cbn [foldl existsb fst snd]. rewrite IH, assoc_add. unfold lines_for.
  cbn [List.filter fst]. rewrite (String.eqb_sym k lang).
  destruct (String.eqb lang k) eqn:E; cbn [orb List.map foldr snd].
  - apply String.eqb_eq in E. subst lang.
    destruct (existsb _ ts) eqn:Hex; simpl; f_equal; [lia|].
    rewrite filter_none; [simpl; lia|].
    intros x Hx. destruct (String.eqb (fst x) k) eqn:Ex; [|done].
    assert (existsb (λ x, String.eqb (fst x) k) ts = true); [|congruence].
    apply existsb_exists. by exists x.
  - done.
Qed.

Lemma keys_add lang n t :
  List.map fst (Totals.add lang n t)
  = if bool_decide (lang ∈ List.map fst t) then List.map fst t
    else (List.map fst t ++ [lang])%list.
Proof.
  induction t as [|[k v] t IH]; simpl; [done|].
  destruct (String.eqb k lang) eqn:E; simpl.
  - apply String.eqb_eq in E. subst k. rewrite bool_decide_eq_true_2; [done|left].
  - apply String.eqb_neq in E. rewrite IH.
    destruct (bool_decide (lang ∈ List.map fst t)) eqn:Hin.
    + apply bool_decide_eq_true_1 in Hin. rewrite bool_decide_eq_true_2; [done|by right].
    + apply bool_decide_eq_false_1 in Hin. rewrite bool_decide_eq_false_2; [done|].
      intros [?|?]%elem_of_cons; congruence.
Qed.

Lemma filter_filter_bool {A : Type} (f g : A → bool) (l : list A) :
  List.filter f (List.filter g l) = List.filter (λ x, g x && f x) l.
Proof.
  induction l as [|a l IH]; simpl; [done|].
  destruct (g a); simpl; [|done]. destruct (f a); by rewrite IH.
Qed.

Lemma keys_foldl_add ts t :
  List.map fst (foldl add_pair t ts)
  = (List.map fst t
     ++ List.filter (λ y, negb (bool_decide (y ∈ List.map fst t)))
                    (first_seen (List.map fst ts)))%list.
Proof.
  revert t. induction ts as [|[lang n] ts IH]; intros t.
  - simpl. by rewrite app_nil_r.
  - cbn [foldl List.map fst snd first_seen List.filter]. rewrite IH, keys_add.
    rewrite filter_filter_bool.
    destruct (bool_decide (lang ∈ List.map fst t)) eqn:Hin; cbn [negb].
    + f_equal. apply List.filter_ext. intros y.
      destruct (String.eqb y lang) eqn:E; [|done].
      apply String.eqb_eq in E. subst y. by rewrite Hin.
    + rewrite <- app_assoc. cbn [app]. do 2 f_equal.
      apply List.filter_ext. intros y.
      destruct (String.eqb y lang) eqn:E; cbn [negb andb].
      * apply String.eqb_eq in E. subst y.
        rewrite bool_decide_eq_true_2; [done|]. apply elem_of_app. right. left.
      * apply String.eqb_neq in E.
        destruct (bool_decide (y ∈ List.map fst t)) eqn:Hy.
        -- apply bool_decide_eq_true_1 in Hy.
           rewrite bool_decide_eq_true_2; [done|]. apply elem_of_app. by left.
        -- apply bool_decide_eq_false_1 in Hy.
           rewrite bool_decide_eq_false_2; [done|].
           intros [?|Hl]%elem_of_app; [done|].
           apply list_elem_of_singleton in Hl. congruence.
Qed.

Lemma first_seen_NoDup (l : list string) : NoDup (first_seen l).
Proof.
  induction l as [|x l IH]; simpl; [constructor|].
  apply NoDup_cons. split.
  - intros Hin. apply list_elem_of_In, filter_In in Hin as [_ Hne].
    by rewrite String.eqb_refl in Hne.
  - apply NoDup_ListNoDup, List.NoDup_filter, NoDup_ListNoDup, IH.
Qed.

Lemma first_seen_elem (l : list string) (x : string) : x ∈ first_seen l ↔ x ∈ l.
Proof.
  induction l as [|y l IH]; simpl; [done|].
  rewrite !elem_of_cons, <- IH. split.
  - intros [->|Hin]; [by left|].
    apply list_elem_of_In, filter_In in Hin as [Hin _]. right. by apply list_elem_of_In.
  - destruct (decide (x = y)) as [->|Hne]; [by left|].
    intros [?|Hin]; [done|]. right.
    apply list_elem_of_In, filter_In. split; [by apply list_elem_of_In|].
    apply negb_true_iff, String.eqb_neq. done.
Qed.

Lemma sum_add lang n t :
  foldr Z.add 0 (List.map snd (Totals.add lang n t)) = foldr Z.add 0 (List.map snd t) + n.
Proof.
  induction t as [|[k v] t IH]; simpl; [lia|].
  destruct (String.eqb k lang); simpl; [lia|]. rewrite IH. lia.
Qed.

Lemma sum_foldl_add ts t :
  foldr Z.add 0 (List.map snd (foldl add_pair t ts))
  = foldr Z.add 0 (List.map snd t) + foldr Z.add 0 (List.map snd ts).
Proof.
  revert t. induction ts as [|[lang n] ts IH]; intros t; simpl; [lia|].
  rewrite IH, sum_add. lia.
Qed.

Lemma nonneg_add lang n t :
  0 <= n → Forall (λ r, 0 <= snd r) t → Forall (λ r, 0 <= snd r) (Totals.add lang n t).
Proof.
  intros Hn. induction 1 as [|[k v] t Hv Ht IH]; simpl.
  - repeat constructor. simpl. lia.
  - destruct (String.eqb k lang); constructor; simpl in *; try done. lia.
Qed.

End TotalsAlgebra.

Section SortFilter.

Implicit Types (x : string * Z) (l : list (string * Z)) (f : string * Z → bool).

Lemma filter_insert_desc f x l :
  StronglySorted count_ge l →
  List.filter f (insert_desc x l)
  = if f x then insert_desc x (List.filter f l) else List.filter f l.
Proof.
  induction 1 as [|y l Hl IH Hy]; simpl.
  - by destruct (f x).
  - destruct (snd y <=? snd x) eqn:E; simpl.
    + destruct (f x) eqn:Efx; [|done].
      destruct (f y) eqn:Efy; simpl; [by rewrite E|].
      apply Z.leb_le in E.
      assert (Hall : Forall (λ z, snd z <= snd x) (List.filter f l)).
      { apply Forall_forall. intros z Hz%list_elem_of_In%filter_In.
        destruct Hz as [Hz _]. rewrite Forall_forall in Hy.
        specialize (Hy z (proj2 (list_elem_of_In _ _) Hz)). unfold count_ge in Hy. lia. }
      destruct (List.filter f l) as [|z l'] eqn:El; [done|].
      simpl. inversion Hall as [|? ? Hz _]; subst.
      apply Z.leb_le in Hz. by rewrite Hz.
    + rewrite IH. destruct (f y) eqn:Efy; simpl.
      * destruct (f x); [|done]. by rewrite E.
      * by destruct (f x).
Qed.

(** The stable sort and a filter commute. *)
Lemma sorted_desc_filter f l :
  sorted_desc (List.filter f l) = List.filter f (sorted_desc l).
Proof.
  induction l as [|x l IH]; [done|].
  cbn [List.filter sorted_desc foldr]. fold (sorted_desc l).
  rewrite filter_insert_desc by apply sorted_desc_sorted.
  destruct (f x); [|done]. cbn [sorted_desc foldr]. fold (sorted_desc (List.filter f l)).
  by rewrite IH.
Qed.

Lemma sum_perm l l' :
  l ≡ₚ l' → foldr Z.add 0 (List.map snd l) = foldr Z.add 0 (List.map snd l').
Proof. induction 1; simpl; lia. Qed.

Lemma filter_add (g : string → bool) (lang : string) (n : Z) (t : Totals.t) :
  List.filter (λ r, g (fst r)) (Totals.add lang n t)
  = if g lang then Totals.add lang n (List.filter (λ r, g (fst r)) t)
    else List.filter (λ r, g (fst r)) t.
Proof.
  induction t as [|[k v] t IH]; simpl.
  - by destruct (g lang).
  - destruct (String.eqb k lang) eqn:E; simpl.
    + apply String.eqb_eq in E. subst k.
      destruct (g lang); simpl; [by rewrite String.eqb_refl|done].
    + rewrite IH. destruct (g k); simpl; destruct (g lang); simpl; try done.
      by rewrite E.
Qed.

Lemma filter_foldl_add (g : string → bool) (ts : list (string * Z)) (t : Totals.t) :
  List.filter (λ r, g (fst r)) (foldl (λ t x, Totals.add (fst x) (snd x) t) t ts)
  = foldl (λ t x, Totals.add (fst x) (snd x) t)
          (List.filter (λ r, g (fst r)) t) (List.filter (λ r, g (fst r)) ts).
Proof.
  revert t. induction ts as [|[lang n] ts IH]; intros t; [done|].
  cbn [foldl List.filter fst snd]. rewrite IH, filter_add.
  by destruct (g lang).
Qed.

End SortFilter.

Section Labels.

Lemma tables_labels_not_empty :
  map_Forall (λ _ label, label ≠ "") EXTENSION_MAP
  ∧ map_Forall (λ _ label, label ≠ "") ROOT_FILENAME_MAP.
Proof.
  split; apply map_Forall_to_list; vm_compute; repeat constructor; discriminate.
Qed.

Lemma language_in_vocabulary (p : Path) (label : string) :
  language_for_path p = Ok (Some label) → in_vocabulary label ∧ label ≠ "".
Proof.
  rewrite language_for_path_refines. unfold spec_classify, in_vocabulary.
  destruct tables_labels_not_empty as [Hext Hroot].
  destruct (ROOT_FILENAME_MAP !! PurePath.as_posix p) as [l|] eqn:E.
  - intros [= ->]. split; [eauto|]. by apply (Hroot _ _ E).
  - intros [= H]. split; [eauto|]. by apply (Hext _ _ H).
Qed.

Lemma count_newlines_nonneg (w : World) (path : Path) (n : Z) :
  count_newlines w path = Ok n → 0 <= n.
Proof.
  unfold count_newlines. destruct (open_rb w path) as [content|e]; simpl; [|done].
  intros [= <-]. rewrite count_chunks_total by (unfold CHUNK_SIZE; lia).
  rewrite bytes_count_occ. lia.
Qed.

End Labels.

(** X1.  When the loop over the listed files raises nothing, the total of
    a language is the sum of the line counts of the tallied files of that
    language, and a language of no tallied file has no entry. *)
Theorem totals_per_language (w : World) (args : Args) (base self_path : Path)
    (files : list Path) (totals : Totals.t) :
  count_files w args base self_path files = Ok totals →
  ∀ lang : string,
    os.assoc lang totals
    = if existsb (λ x, String.eqb (fst x) lang) (tallies w args base self_path files)
      then Some (lines_for lang (tallies w args base self_path files))
      else None.
Proof.
  intros Hcount lang.
  rewrite (foldl_step_tallies w args base self_path files [] totals Hcount).
  rewrite assoc_foldl_add. simpl. by destruct (existsb _ _).
Qed.

Lemma totals_per_language_witness :
  count_files MoreScenarios.two_py_world (mkArgs Scenario.repo false false)
    Scenario.repo Scenario.script MoreScenarios.two_py_files
  = Ok [("Python", 7); ("Markdown", 9)]
  ∧ os.assoc "Python" [("Python", 7); ("Markdown", 9)] = Some (3 + 4)
  ∧ os.assoc "Shell" [("Python", 7); ("Markdown", 9)] = None.
Proof.
  split; [vm_compute; reflexivity|]. split.
  - apply (totals_per_language MoreScenarios.two_py_world
             (mkArgs Scenario.repo false false) Scenario.repo Scenario.script
             MoreScenarios.two_py_files).
    vm_compute. reflexivity.
  - apply (totals_per_language MoreScenarios.two_py_world
             (mkArgs Scenario.repo false false) Scenario.repo Scenario.script
             MoreScenarios.two_py_files).
    vm_compute. reflexivity.
Defined.

Lemma totals_keys_eq (w : World) (args : Args) (base self_path : Path)
    (files : list Path) (totals : Totals.t) :
  count_files w args base self_path files = Ok totals →
  List.map fst totals = first_seen (List.map fst (tallies w args base self_path files)).
Proof.
  intros Hcount.
  rewrite (foldl_step_tallies w args base self_path files [] totals Hcount).
  rewrite keys_foldl_add. cbn [List.map app].
  apply forallb_filter_id, forallb_forall. intros x _.
  apply negb_true_iff, bool_decide_eq_false_2, not_elem_of_nil.
Qed.

(** X2.  The totals hold each language once, and hold the languages in the
    order in which the listing first brings a tallied file of each. *)
Theorem totals_keys_first_seen (w : World) (args : Args) (base self_path : Path)
    (files : list Path) (totals : Totals.t) :
  count_files w args base self_path files = Ok totals →
  List.map fst totals = first_seen (List.map fst (tallies w args base self_path files))
  ∧ NoDup (List.map fst totals).
Proof.
  intros Hcount.
  pose proof (totals_keys_eq w args base self_path files totals Hcount) as Hkeys.
  split; [exact Hkeys|]. rewrite Hkeys. apply first_seen_NoDup.
Qed.

Lemma totals_keys_first_seen_witness :
  List.map fst [("Python", 7); ("Markdown", 9)] = ["Python"; "Markdown"]
  ∧ NoDup (List.map fst [("Python", 7); ("Markdown", 9)]).
Proof.
  apply (totals_keys_first_seen MoreScenarios.two_py_world
           (mkArgs Scenario.repo false false) Scenario.repo Scenario.script
           MoreScenarios.two_py_files).
  vm_compute. reflexivity.
Defined.

(** X3.  The count of the [TOTAL] row is the sum of the line counts of the
    tallied files that the report keeps: of all of them, or with
    [--code-only] of those of a code language. *)
Theorem grand_total_of_files (w : World) (args : Args) (base self_path : Path)
    (files : list Path) (totals : Totals.t) :
  count_files w args base self_path files = Ok totals →
  report_rows args totals
  = (sorted_desc (selected_items args totals)
     ++ [("TOTAL",
          foldr Z.add 0
            (List.map snd (selected_items args (tallies w args base self_path files))))])%list.
Proof.
  intros Hcount. rewrite report_rows_shape. do 3 f_equal.
  rewrite sum_lines_sum, (sum_perm _ _ (sorted_desc_perm _)).
  rewrite (foldl_step_tallies w args base self_path files [] totals Hcount).
  unfold selected_items. destruct (code_only args).
  - pose proof (filter_foldl_add (λ k, bool_decide (k ∈ CODE_LANGUAGES))
                  (tallies w args base self_path files) []) as Hfilter.
    cbn beta in Hfilter. rewrite Hfilter. by rewrite sum_foldl_add.
  - by rewrite sum_foldl_add.
Qed.

Lemma grand_total_of_files_witness :
  report_rows (mkArgs Scenario.repo true false) [("Python", 7); ("Markdown", 9)]
  = [("Python", 7); ("TOTAL", 7)].
Proof.
  apply (grand_total_of_files MoreScenarios.two_py_world (mkArgs Scenario.repo true false)
           Scenario.repo Scenario.script MoreScenarios.two_py_files).
  vm_compute. reflexivity.
Defined.

Section Rows.

Context (w : World) (args : Args) (base self_path : Path).

Lemma tally_of_spec (p : Path) (lang : string) (n : Z) :
  tally_of w args base self_path p = Some (lang, n) →
  tallied w args base self_path p = true
  ∧ language_for_path p = Ok (Some lang)
  ∧ count_newlines w (PurePath.truediv base p) = Ok n.
Proof.
  unfold tally_of. destruct (tallied w args base self_path p); [|done].
  destruct (language_for_path p) as [[l|]|e]; try done.
  destruct (count_newlines w (PurePath.truediv base p)) as [m|e]; [|done].
  by intros [= -> ->].
Qed.

Lemma tallies_spec (files : list Path) :
  Forall (λ x, in_vocabulary (fst x) ∧ fst x ≠ "" ∧ 0 <= snd x)
         (tallies w args base self_path files).
Proof.
  apply Forall_forall. intros [lang n] Hin. unfold tallies in Hin.
  apply list_elem_of_omap in Hin as (p & _ & Hp).
  apply tally_of_spec in Hp as (_ & Hlang & Hn).
  destruct (language_in_vocabulary p lang Hlang). simpl.
  split; [done|]. split; [done|]. exact (count_newlines_nonneg w _ n Hn).
Qed.

Lemma foldl_add_nonneg (ts : list (string * Z)) (t : Totals.t) :
  Forall (λ r, 0 <= snd r) ts →
  Forall (λ r, 0 <= snd r) t →
  Forall (λ r, 0 <= snd r) (foldl (λ t x, Totals.add (fst x) (snd x) t) t ts).
Proof.
  intros Hts. revert t. induction Hts as [|[lang n] ts Hn Hts IH]; intros t Ht; [done|].
  simpl. apply IH. by apply nonneg_add.
Qed.

Lemma elem_le_sum (l : list (string * Z)) (r : string * Z) :
  Forall (λ r, 0 <= snd r) l → r ∈ l → snd r <= foldr Z.add 0 (List.map snd l).
Proof.
  induction 1 as [|x l Hx Hl IH]; [by intros ?%elem_of_nil|].
  assert (0 <= foldr Z.add 0 (List.map snd l)).
  { clear -Hl. induction Hl; simpl; lia. }
  simpl. intros [->|Hin]%elem_of_cons; [lia|]. specialize (IH Hin). lia.
Qed.

End Rows.

(** X4.  In a report, every row before the [TOTAL] row has a label of the
    vocabulary (a value of one of the two tables), which is not empty, and a
    count that is not negative and is at most the count of the [TOTAL]
    row. *)
Theorem rows_labels_and_counts (w : World) (args : Args) (base self_path : Path)
    (files : list Path) (totals : Totals.t) (rows : list (string * Z)) (total : Z) :
  count_files w args base self_path files = Ok totals →
  report_rows args totals = (rows ++ [("TOTAL", total)])%list →
  Forall (λ r, in_vocabulary (fst r) ∧ fst r ≠ "" ∧ 0 <= snd r <= total) rows.
Proof.
  intros Hcount Hrows. rewrite report_rows_shape in Hrows.
  apply app_inj_tail in Hrows as [<- [= <-]].
  pose proof (foldl_step_tallies w args base self_path files [] totals Hcount) as Htot.
  pose proof (tallies_spec w args base self_path files) as Hts.
  assert (Hnn : Forall (λ r, 0 <= snd r) totals).
  { rewrite Htot. apply foldl_add_nonneg; [|constructor].
    eapply Forall_impl; [exact Hts|]. by intros x (_ & _ & ?). }
  assert (Hsub : ∀ r, r ∈ sorted_desc (selected_items args totals) → r ∈ totals).
  { intros r Hr. rewrite sorted_desc_perm in Hr. unfold selected_items in Hr.
    destruct (code_only args); [|done].
    apply list_elem_of_In, filter_In in Hr as [Hr _]. by apply list_elem_of_In. }
  assert (Hnn' : Forall (λ r, 0 <= snd r) (sorted_desc (selected_items args totals))).
  { apply Forall_forall. intros r Hr. rewrite Forall_forall in Hnn. apply Hnn, Hsub, Hr. }
  apply Forall_forall. intros r Hr.
  assert (Hkey : fst r ∈ List.map fst (tallies w args base self_path files)).
  { apply first_seen_elem.
    rewrite <- (totals_keys_eq w args base self_path files totals Hcount).
    apply list_elem_of_In, in_map, list_elem_of_In, Hsub, Hr. }
  apply list_elem_of_In, in_map_iff in Hkey as (x & Hx & Hin).
  rewrite Forall_forall in Hts. apply list_elem_of_In in Hin.
  destruct (Hts x Hin) as (Hv & Hne & _). rewrite Hx in Hv, Hne.
  split; [done|]. split; [done|]. split.
  - rewrite Forall_forall in Hnn'. by apply Hnn'.
  - rewrite sum_lines_sum. by apply elem_le_sum.
Qed.

Lemma rows_labels_and_counts_witness :
  Forall (λ r, in_vocabulary (fst r) ∧ fst r ≠ "" ∧ 0 <= snd r <= 16)
         [("Markdown", 9); ("Python", 7)].
Proof.
  apply (rows_labels_and_counts MoreScenarios.two_py_world
           (mkArgs Scenario.repo false false) Scenario.repo Scenario.script
           MoreScenarios.two_py_files [("Python", 7); ("Markdown", 9)]).
  - vm_compute. reflexivity.
  - vm_compute. reflexivity.
Defined.

(** X5.  The report of [--code-only] is the full report without the rows
    that are not of a code language, in the same order, with the total of
    the rows that are left. *)
Theorem code_only_filters_report (rt : Path) (incl : bool) (totals : Totals.t)
    (rows : list (string * Z)) (total : Z) :
  report_rows (mkArgs rt false incl) totals = (rows ++ [("TOTAL", total)])%list →
  report_rows (mkArgs rt true incl) totals
  = (List.filter is_code_item rows
     ++ [("TOTAL", foldr Z.add 0 (List.map snd (List.filter is_code_item rows)))])%list.
Proof.
  intros Hfull. rewrite report_rows_shape in Hfull.
  apply app_inj_tail in Hfull as [<- _].
  rewrite report_rows_shape, sum_lines_sum. unfold selected_items. cbn [code_only].
  fold is_code_item. by rewrite sorted_desc_filter.
Qed.

Lemma code_only_filters_report_witness :
  report_rows (mkArgs Scenario.repo true false)
    [("Python", 3); ("C++", 5); ("Markdown", 2); ("Text", 0)]
  = [("C++", 5); ("Python", 3); ("TOTAL", 8)].
Proof.
  apply (code_only_filters_report Scenario.repo false
           [("Python", 3); ("C++", 5); ("Markdown", 2); ("Text", 0)]
           [("C++", 5); ("Python", 3); ("Markdown", 2); ("Text", 0)] 10).
  vm_compute. reflexivity.
Defined.

(** * More on the reporter *)

Section Reporter.


















End Reporter.



(** * More on the lister: listings and paths *)

Section Listings.

Lemma bytes_split_entry (entry rest : list byte) :
  x00 ∉ entry →
  Bytes.split x00 (entry ++ x00 :: rest) = entry :: Bytes.split x00 rest.
Proof.
  induction entry as [|b entry IH]; intros Hnull.
  - reflexivity.
  - apply not_elem_of_cons in Hnull as [Hb Hentry].
    cbn [app Bytes.split]. rewrite (IH Hentry).
    destruct (Byte.eqb b x00) eqn:E; [|done].
    apply byte_dec_bl in E. congruence.
Qed.

Lemma bytes_split_null_terminated (entries : list (list byte)) :
  Forall (λ entry, x00 ∉ entry) entries →
  Bytes.split x00 (null_terminated entries) = (entries ++ [[]])%list.
Proof.
  induction 1 as [|entry entries Hentry _ IH]; [reflexivity|].
  unfold null_terminated in *. cbn [flat_map app].
  rewrite <- app_assoc. cbn [app]. by rewrite bytes_split_entry, IH.
Qed.

Lemma str_split_piece (piece rest : string) :
  Str.contains "/" piece = false →
  Str.split "/" (piece ++ String "/" rest) = piece :: Str.split "/" rest.
Proof.
  induction piece as [|c piece IH]; intros Hslash.
  - reflexivity.
  - cbn [Str.contains] in Hslash. apply orb_false_iff in Hslash as [Hc Hpiece].
    change (String c piece ++ String "/" rest) with (String c (piece ++ String "/" rest)).
    cbn [Str.split]. by rewrite Hc, (IH Hpiece).
Qed.

Lemma str_split_last (piece : string) :
  Str.contains "/" piece = false → Str.split "/" piece = [piece].
Proof.
  induction piece as [|c piece IH]; intros Hslash; [reflexivity|].
  cbn [Str.contains] in Hslash. apply orb_false_iff in Hslash as [Hc Hpiece].
  cbn [Str.split]. by rewrite Hc, (IH Hpiece).
Qed.

Lemma valid_name_spec (nm : string) :
  valid_name nm = true →
  nm ≠ "" ∧ nm ≠ "." ∧ Str.contains "/" nm = false.
Proof.
  unfold valid_name. intros [[H1 H2]%andb_true_iff H3]%andb_true_iff.
  apply negb_true_iff in H1, H2, H3. apply String.eqb_neq in H1, H2. done.
Qed.

Lemma str_split_join (names : list string) :
  names ≠ [] →
  Forall (λ nm, valid_name nm = true) names →
  Str.split "/" (Str.join "/" names) = names.
Proof.
  intros Hne Hnames. induction Hnames as [|nm names Hnm Hnames IH]; [done|].
  apply valid_name_spec in Hnm as (_ & _ & Hslash).
  destruct names as [|nm' names].
  - simpl. by apply str_split_last.
  - change (Str.join "/" (nm :: nm' :: names))
      with (nm ++ String "/" (Str.join "/" (nm' :: names))).
    rewrite str_split_piece by done. by rewrite IH.
Qed.

Lemma filter_valid_names (names : list string) :
  Forall (λ nm, valid_name nm = true) names →
  List.filter (λ c, negb (String.eqb c "" || String.eqb c ".")) names = names.
Proof.
  induction 1 as [|nm names Hnm _ IH]; [done|].
  apply valid_name_spec in Hnm as (H1 & H2 & _).
  apply String.eqb_neq in H1, H2. simpl. by rewrite H1, H2, IH.
Qed.

Lemma join_not_absolute (names : list string) :
  Forall (λ nm, valid_name nm = true) names →
  match Str.join "/" names with String "/" _ => true | _ => false end = false.
Proof.
  destruct 1 as [|nm names Hnm _]; [done|].
  apply valid_name_spec in Hnm as (Hne & _ & Hslash).
  destruct nm as [|c nm]; [done|].
  cbn [Str.contains] in Hslash. apply orb_false_iff in Hslash as [Hc _].
  assert (Hhead : ∃ tail, Str.join "/" (String c nm :: names) = String c tail).
  { destruct names; simpl; eauto. }
  destruct Hhead as [tail ->].
  destruct c as [[] [] [] [] [] [] [] []]; try done.
Qed.

(** The path of a string of valid names joined by slashes has those names
    for components. *)
Lemma Path_of_str_join (names : list string) :
  Forall (λ nm, valid_name nm = true) names →
  Path_of_str (Str.join "/" names) = mkPath false names.
Proof.
  intros Hnames. unfold Path_of_str. rewrite join_not_absolute by done. f_equal.
  destruct names as [|nm names]; [done|].
  rewrite str_split_join by done. by apply filter_valid_names.
Qed.

End Listings.

(** X7.  A listing command that exits with the status 0, having printed
    entries that are not empty, each followed by a null byte, gives one path
    per entry, in the order of the entries: the empty piece after the last
    null byte is dropped and nothing else is. *)
Theorem listing_entries_round_trip (w : World) (base : Path) (command : list string)
    (entries : list (list byte)) :
  run_process w base command = Completed 0 (null_terminated entries) →
  Forall (λ entry, entry ≠ [] ∧ x00 ∉ entry) entries →
  run_file_list_command w base command
  = Ok (Some (List.map (λ entry, Path_of_str (Bytes.decode entry)) entries)).
Proof.
  intros Hrun Hentries. unfold run_file_list_command. rewrite Hrun. simpl.
  rewrite bytes_split_null_terminated
    by (eapply Forall_impl; [exact Hentries|]; by intros e [_ ?]).
  rewrite List.filter_app. simpl. rewrite app_nil_r.
  rewrite forallb_filter_id; [done|].
  apply forallb_forall. intros e He. rewrite Forall_forall in Hentries.
  destruct (Hentries e (proj2 (list_elem_of_In _ _) He)) as [Hne _].
  by destruct e.
Qed.

Lemma listing_entries_round_trip_witness :
  run_file_list_command
    (Scenario.world (Completed 0 (null_terminated [[x61; x2e; x63]; [x62; x2f; x63; x2e; x68]]))
       ExecNotFound (Dir []) [])
    Scenario.repo ["rg"; "--files"; "-0"]
  = Ok (Some [mkPath false ["a.c"]; mkPath false ["b"; "c.h"]]).
Proof.
  apply (listing_entries_round_trip
           (Scenario.world
              (Completed 0 (null_terminated [[x61; x2e; x63]; [x62; x2f; x63; x2e; x68]]))
              ExecNotFound (Dir []) [])
           Scenario.repo ["rg"; "--files"; "-0"]
           [[x61; x2e; x63]; [x62; x2f; x63; x2e; x68]]).
  - reflexivity.
  - repeat (apply List.Forall_cons;
              [split; [discriminate
                      | rewrite !not_elem_of_cons; repeat split;
                        (discriminate || apply not_elem_of_nil)]|]).
    apply List.Forall_nil.
Defined.

(** * What can go wrong *)

Section Failures.

Lemma assoc_map_elem {A : Type} (f : string * node → A)
    (entries : list (string * node)) (nm : string) (a : A) :
  os.assoc nm (List.map (λ e, (fst e, f e)) entries) = Some a →
  ∃ e, e ∈ entries ∧ fst e = nm ∧ a = f e.
Proof.
  induction entries as [|[k d] entries IH]; simpl; [done|].
  destruct (String.eqb k nm) eqn:E.
  - apply String.eqb_eq in E. intros [= <-]. exists (k, d). split; [left|done].
  - intros H. destruct (IH H) as (e & He & Hk & Ha). exists e. split; [by right|done].
Qed.

Lemma walk_body_value (base : Path) (pre : list string) (dirnames filenames : list string)
    (out : list Path) :
  walk_body base (mkPath (absolute base) (parts base ++ pre)) dirnames filenames out
  = Ok (if bool_decide (".git" ∈ dirnames) then list_remove ".git" dirnames else dirnames,
        (out ++ List.map (λ nm, mkPath false (pre ++ [nm])) filenames)%list).
Proof. unfold walk_body. by rewrite walk_body_files. Qed.

(** The manual walk raises nothing of its own, on any tree: every path that
    it makes relative to the root is under the root, and [relative_to] raises
    no [ValueError].  What ends it is the recursion limit alone. *)
Lemma walk_raises_recursion (base : Path) (n : node) :
  ∀ (budget : option nat) (pre : list string) (out : list Path) (e : exn),
    os.walk (walk_body base) (mkPath (absolute base) (parts base ++ pre)) n budget out
    = Raise e →
    e = RecursionError ∧ budget ≠ None.
Proof.
  induction n as [|entries IH] using node_nested_ind; intros budget pre out.
  - intros e. by destruct budget as [[|k]|].
  - destruct (decide (budget = Some 0%nat)) as [->|Hbudget].
    { intros e [= <-]. done. }
    rewrite walk_Dir, walk_body_value by done. cbn [mbind result_bind].
    generalize (out ++ List.map (λ nm, mkPath false (pre ++ [nm])) (os.filenames entries))%list.
    generalize (if bool_decide (".git" ∈ os.dirnames entries)
                then list_remove ".git" (os.dirnames entries)
                else os.dirnames entries).
    intros dirs l.
    assert (Hgen : ∀ acc : result (list Path),
      (∀ e, acc = Raise e → e = RecursionError ∧ budget ≠ None) →
      ∀ e,
        foldl (λ acc nm,
                 s' ← acc;
                 default Ok
                   (os.assoc nm
                      (List.map
                         (λ e, (fst e,
                                os.walk (walk_body base)
                                  (PurePath.child
                                     (mkPath (absolute base) (parts base ++ pre)) (fst e))
                                  (snd e) (os.deeper budget)))
                         entries)) s')
              acc dirs = Raise e →
        e = RecursionError ∧ budget ≠ None).
    { induction dirs as [|nm dirs IHdirs]; intros acc Hacc; cbn [foldl]; [exact Hacc|].
      apply IHdirs. intros e. destruct acc as [l'|e'']; cbn [mbind result_bind]; [|apply Hacc].
      destruct (os.assoc nm _) as [g|] eqn:Hassoc; cbn [default from_option id]; [|done].
      apply assoc_map_elem in Hassoc as (x & Hx & Hnm & ->).
      rewrite Forall_forall in IH.
      unfold PurePath.child. cbn [absolute parts]. rewrite <- app_assoc.
      intros Hr. destruct (IH x Hx _ _ _ _ Hr) as [-> Hd].
      split; [done|]. by destruct budget as [[|k]|]. }
    apply Hgen. done.
Qed.

Lemma run_file_list_command_raises (w : World) (base : Path) (command : list string)
    (e : exn) :
  run_file_list_command w base command = Raise e
  ↔ run_process w base command = SpawnError e.
Proof.
  unfold run_file_list_command.
  destruct (run_process w base command) as [rc out| |e']; simpl.
  - destruct (rc =? 0); split; discriminate.
  - split; discriminate.
  - split; congruence.
Qed.

Lemma run_file_list_command_none (w : World) (base : Path) (command : list string) :
  run_file_list_command w base command = Ok None
  ↔ listing_failed (run_process w base command) = true.
Proof.
  unfold run_file_list_command, listing_failed.
  destruct (run_process w base command) as [rc out| |e']; simpl.
  - destruct (rc =? 0); simpl; split; (discriminate || done).
  - done.
  - split; discriminate.
Qed.

(** When both commands fail, the lister is the manual walk. *)
Lemma list_files_walks (w : World) (base : Path) :
  listing_failed (run_process w base ["rg"; "--files"; "-0"]) = true →
  listing_failed (run_process w base ["git"; "ls-files"; "-z"]) = true →
  list_files w base
  = os.walk (walk_body base) base (tree_at w base) (recursion_limit w) [].
Proof.
  intros Hrg Hgit. unfold list_files.
  rewrite (proj2 (run_file_list_command_none w base _) Hrg). cbn [mbind result_bind].
  by rewrite (proj2 (run_file_list_command_none w base _) Hgit).
Qed.

Lemma list_files_raises (w : World) (base : Path) (e : exn) :
  list_files w base = Raise e →
  run_process w base ["rg"; "--files"; "-0"] = SpawnError e
  ∨ (listing_failed (run_process w base ["rg"; "--files"; "-0"]) = true
     ∧ run_process w base ["git"; "ls-files"; "-z"] = SpawnError e)
  ∨ (listing_failed (run_process w base ["rg"; "--files"; "-0"]) = true
     ∧ listing_failed (run_process w base ["git"; "ls-files"; "-z"]) = true
     ∧ e = RecursionError ∧ recursion_limit w ≠ None).
Proof.
  unfold list_files.
  rewrite <- !run_file_list_command_raises, <- !run_file_list_command_none.
  destruct (run_file_list_command w base ["rg"; "--files"; "-0"]) as [[files|]|e1]; simpl.
  - done.
  - destruct (run_file_list_command w base ["git"; "ls-files"; "-z"])
      as [[files|]|e2]; simpl.
    + done.
    + intros Hwalk. right. right. split; [done|]. split; [done|].
      apply (walk_raises_recursion base (tree_at w base) (recursion_limit w) [] []).
      rewrite app_nil_r. by destruct base as [abs ps].
    + intros [= ->]. right. by left.
  - intros [= ->]. by left.
Qed.

Lemma list_files_spawn_error (w : World) (base : Path) (e : exn) :
  (run_process w base ["rg"; "--files"; "-0"] = SpawnError e →
   list_files w base = Raise e)
  ∧ (listing_failed (run_process w base ["rg"; "--files"; "-0"]) = true →
     run_process w base ["git"; "ls-files"; "-z"] = SpawnError e →
     list_files w base = Raise e).
Proof.
  unfold list_files.
  rewrite <- !run_file_list_command_raises, <- !run_file_list_command_none.
  split.
  - by intros ->.
  - by intros -> ->.
Qed.

Context (w : World) (args : Args) (base self_path : Path).

Abbreviation fail_step :=
  (λ (acc : result Totals.t) (rel_path : Path),
     totals ← acc; count_file w args base self_path totals rel_path).

Lemma count_newlines_raises (path : Path) (e : exn) :
  count_newlines w path = Raise e ↔ open_rb w path = Raise e.
Proof.
  unfold count_newlines. destruct (open_rb w path) as [fh|e']; simpl; split; congruence.
Qed.



(** The loop passes the files whose checks raise nothing and whose tallied
    ones can be opened. *)
Lemma foldl_step_passes (files : list Path) (acc : Totals.t) :
  forallb (passes w args base self_path) files = true →
  ∃ totals, foldl fail_step (Ok acc) files = Ok totals.
Proof.
  revert acc. induction files as [|p files IH]; intros acc; simpl; [eauto|].
  intros [Hp Hfiles]%andb_true_iff. unfold passes in Hp.
  destruct (file_checks w args base self_path p) as [[|]|e'] eqn:Hc; [| |done].
  - apply tallied_checks in Hc.
    destruct (count_file_tallied w args base self_path acc p Hc) as (lang & _ & ->).
    unfold readable in Hp. unfold count_newlines.
    destruct (open_rb w (PurePath.truediv base p)) as [fh|e]; [|done].
    simpl. by apply IH.
  - rewrite count_file_skipped by done. by apply IH.
Qed.

(** The loop raises nothing exactly when it passes every file. *)
Lemma foldl_step_ok (files : list Path) (acc totals : Totals.t) :
  foldl fail_step (Ok acc) files = Ok totals →
  forallb (passes w args base self_path) files = true.
Proof.
  revert acc. induction files as [|p files IH]; intros acc; simpl; [done|].
  unfold passes at 1.
  destruct (file_checks w args base self_path p) as [[|]|e'] eqn:Hc.
  - apply tallied_checks in Hc.
    destruct (count_file_tallied w args base self_path acc p Hc) as (lang & _ & ->).
    unfold count_newlines, readable.
    destruct (open_rb w (PurePath.truediv base p)) as [fh|e]; simpl.
    + apply IH.
    + by rewrite foldl_step_raise.
  - rewrite count_file_skipped by done. apply IH.
  - by rewrite (count_file_raises w args base self_path acc p e' Hc), foldl_step_raise.
Qed.

End Failures.

(** X9.  [list_files] raises the exception of [subprocess.run] that
    [run_file_list_command] does not catch: that of [rg], or that of [git]
    when [rg] has failed.  When both commands fail it raises nothing but the
    [RecursionError] of [os.walk], which it raises exactly on a tree that is
    deeper than the interpreter can recurse (on a tree whose directories
    have entries of distinct names); where [os.walk] does not recurse the
    manual walk always gives a list, whatever the tree: [relative_to] never
    raises there. *)
Theorem list_files_failures (w : World) (base : Path) :
  (∀ e : exn,
     list_files w base = Raise e →
     run_process w base ["rg"; "--files"; "-0"] = SpawnError e
     ∨ (listing_failed (run_process w base ["rg"; "--files"; "-0"]) = true
        ∧ run_process w base ["git"; "ls-files"; "-z"] = SpawnError e)
     ∨ (listing_failed (run_process w base ["rg"; "--files"; "-0"]) = true
        ∧ listing_failed (run_process w base ["git"; "ls-files"; "-z"]) = true
        ∧ e = RecursionError ∧ recursion_limit w ≠ None))
  ∧ (∀ e : exn,
       run_process w base ["rg"; "--files"; "-0"] = SpawnError e →
       list_files w base = Raise e)
  ∧ (∀ e : exn,
       listing_failed (run_process w base ["rg"; "--files"; "-0"]) = true →
       run_process w base ["git"; "ls-files"; "-z"] = SpawnError e →
       list_files w base = Raise e)
  ∧ (listing_failed (run_process w base ["rg"; "--files"; "-0"]) = true →
     listing_failed (run_process w base ["git"; "ls-files"; "-z"]) = true →
     names_distinct (tree_at w base) = true →
     (list_files w base = Raise RecursionError
      ↔ within_limit (recursion_limit w) (tree_at w base) = false))
  ∧ (listing_failed (run_process w base ["rg"; "--files"; "-0"]) = true →
     listing_failed (run_process w base ["git"; "ls-files"; "-z"]) = true →
     recursion_limit w = None →
     ∃ files : list Path, list_files w base = Ok files).
Proof.
  split; [intros e; apply list_files_raises|].
  split; [intros e; apply list_files_spawn_error|].
  split; [intros e; apply list_files_spawn_error|].
  split.
  - intros Hrg Hgit Htree. rewrite list_files_walks by done.
    pose proof (walk_visible base (tree_at w base) (recursion_limit w) [] [] Htree) as Hwalk.
    rewrite app_nil_r in Hwalk. destruct base as [abs ps]. cbn [absolute parts] in Hwalk.
    rewrite Hwalk. by destruct (within_limit _ _).
  - intros Hrg Hgit Hlimit.
    destruct (list_files w base) as [files|e] eqn:Hlist; [eauto|].
    apply list_files_raises in Hlist as [Hrg'|[[_ Hgit']|(_ & _ & _ & Hne)]].
    + by rewrite Hrg' in Hrg.
    + by rewrite Hgit' in Hgit.
    + done.
Qed.

Lemma list_files_failures_witness :
  list_files RaisingScenarios.rg_not_executable_world Scenario.repo
  = Raise (OSError "Permission denied")
  ∧ list_files RaisingScenarios.deep_world Scenario.repo = Raise RecursionError
  ∧ ∃ files : list Path,
      list_files (Scenario.world ExecNotFound (Completed 128 [])
                    (Dir [("a", File); ("a", Dir [("b.py", File)])]) [])
                 Scenario.repo = Ok files.
Proof.
  split; [|split].
  - apply (proj1 (proj2 (list_files_failures
             RaisingScenarios.rg_not_executable_world Scenario.repo))).
    reflexivity.
  - apply (proj1 (proj2 (proj2 (proj2 (list_files_failures
             RaisingScenarios.deep_world Scenario.repo))))); reflexivity.
  - apply (proj2 (proj2 (proj2 (proj2 (list_files_failures
             (Scenario.world ExecNotFound (Completed 128 [])
                (Dir [("a", File); ("a", Dir [("b.py", File)])]) [])
             Scenario.repo))))); reflexivity.
Defined.



(** X11.  When the root resolves and exists and the listing succeeds, the
    first listed file that is tallied and cannot be opened ends the run with
    the error of its opening, when the checks of the files listed before it
    raise nothing and those that are tallied can be opened: no table and no
    message is printed. *)
Theorem unreadable_tallied_file_crashes (w : World) (args : Args) (rt self_path : Path)
    (before after : list Path) (p : Path) (e : exn) :
  resolve w (root args) = Ok rt →
  path_exists w rt = Ok true →
  resolve w (script_file w) = Ok self_path →
  list_files w rt = Ok (before ++ p :: after)%list →
  forallb (passes w args rt self_path) before = true →
  tallied w args rt self_path p = true →
  open_rb w (PurePath.truediv rt p) = Raise e →
  main w args = Crashed e.
Proof.
  intros Hrt Hroot Hself Hlist Hbefore Hp Hopen.
  assert (Hcount : count_files w args rt self_path (before ++ p :: after) = Raise e).
  { unfold count_files. rewrite foldl_app.
    destruct (foldl_step_passes w args _ _ before [] Hbefore) as [totals Hpass].
    match goal with |- foldl _ ?x _ = _ =>
      replace x with (Ok totals : result Totals.t) by (symmetry; exact Hpass) end.
    cbn [foldl mbind result_bind].
    destruct (count_file_tallied w args _ _ totals p Hp) as (lang & _ & ->).
    apply count_newlines_raises in Hopen. rewrite Hopen. cbn [mbind result_bind].
    apply foldl_step_raise. }
  unfold main. rewrite Hrt, Hroot, Hself. cbn [mbind result_bind].
  rewrite Hlist. cbn [mbind result_bind]. by rewrite Hcount.
Qed.

Lemma unreadable_tallied_file_crashes_witness :
  main Scenario.unreadable_world (mkArgs Scenario.repo false false)
  = Crashed (OSError "Permission denied").
Proof.
  apply (unreadable_tallied_file_crashes Scenario.unreadable_world
           (mkArgs Scenario.repo false false) Scenario.repo Scenario.script
           [] [mkPath false ["a.py"]]
           (mkPath false ["secret.py"])); reflexivity.
Defined.

(** X12.  The flag [--code-only] changes the table alone: with it and
    without it a run accumulates the same totals, ends with the same status,
    and crashes with the same exception if it crashes. *)
Theorem code_only_keeps_status (w : World) (rt : Path) (incl : bool) :
  totals_of_run w (mkArgs rt true incl) = totals_of_run w (mkArgs rt false incl)
  ∧ exit_code (main w (mkArgs rt true incl)) = exit_code (main w (mkArgs rt false incl))
  ∧ (∀ e : exn, main w (mkArgs rt true incl) = Crashed e
                ↔ main w (mkArgs rt false incl) = Crashed e).
Proof.
  split; [reflexivity|].
  unfold main. cbn [root].
  destruct (resolve w rt) as [rt'|e1]; [|done].
  destruct (path_exists w rt') as [[|]|e2]; [|done..].
  change (count_files w (mkArgs rt true incl)) with (count_files w (mkArgs rt false incl)).
  destruct (resolve w (script_file w) ≫= _) as [totals|e']; [|done].
  destruct (Totals.truthy totals); simpl; [|done].
  destruct (format_table_ok _ (report_rows_not_empty (mkArgs rt true incl) totals))
    as [t1 ->].
  destruct (format_table_ok _ (report_rows_not_empty (mkArgs rt false incl) totals))
    as [t2 ->].
  done.
Qed.

(** * The walk lists no file twice *)

Section WalkOnce.

Lemma NoDup_map_inj {A B : Type} (f : A → B) (l : list A) :
  (∀ x y, f x = f y → x = y) → NoDup l → NoDup (List.map f l).
Proof.
  intros Hinj. induction 1 as [|x l Hx Hl IH]; simpl; [constructor|].
  apply NoDup_cons. split; [|done].
  intros Hin. apply list_elem_of_In, in_map_iff in Hin as (y & Hy & Hin).
  apply Hinj in Hy. subst y. by apply Hx, list_elem_of_In.
Qed.

Lemma filenames_NoDup (entries : list (string * node)) :
  NoDup (List.map fst entries) → NoDup (os.filenames entries).
Proof.
  unfold os.filenames. induction entries as [|[k d] entries IH]; simpl; [done|].
  intros [Hk Hes]%NoDup_cons. destruct (os.is_dir d); simpl; [by apply IH|].
  apply NoDup_cons. split; [|by apply IH].
  intros Hin. apply Hk.
  apply list_elem_of_In, in_map_iff in Hin as ([k' d'] & Hk' & Hin).
  apply filter_In in Hin as [Hin _]. simpl in Hk'. subst k'.
  apply list_elem_of_In, in_map_iff. by exists (k, d').
Qed.

Lemma below_files_head (e : string * node) (rel : list string) :
  rel ∈ below_files e → ∃ rest, rel = fst e :: rest ∧ rest ∈ visible_files (snd e).
Proof.
  unfold below_files. destruct (os.is_dir (snd e) && negb (String.eqb (fst e) ".git"));
    [|by intros ?%elem_of_nil].
  intros (rest & <- & Hrest)%list_elem_of_In%in_map_iff.
  exists rest. split; [done|]. by apply list_elem_of_In.
Qed.

Lemma visible_files_not_empty (n : node) : [] ∉ visible_files n.
Proof.
  destruct n as [|entries]; [apply not_elem_of_nil|].
  cbn [visible_files]. fold below_files. intros [H|H]%elem_of_app.
  - by apply list_elem_of_In, in_map_iff in H as (nm & ? & _).
  - apply list_elem_of_In, in_flat_map in H as (e & _ & He).
    by apply list_elem_of_In, below_files_head in He as (rest & ? & _).
Qed.

Lemma visible_files_NoDup (n : node) :
  names_distinct n = true → NoDup (visible_files n).
Proof.
  induction n as [|entries IH] using node_nested_ind; [constructor|].
  cbn [names_distinct visible_files]. fold below_files.
  intros [Hnd Hsub]%andb_true_iff. apply bool_decide_eq_true_1 in Hnd.
  apply NoDup_app. split; [|split].
  - apply NoDup_map_inj; [by intros x y [= ->]|]. by apply filenames_NoDup.
  - intros rel Hfile Hbelow.
    apply list_elem_of_In, in_map_iff in Hfile as (nm & <- & _).
    apply list_elem_of_In, in_flat_map in Hbelow as (e & _ & He).
    apply list_elem_of_In, below_files_head in He as (rest & [= _ <-] & Hrest).
    by apply visible_files_not_empty in Hrest.
  - clear -IH Hnd Hsub.
    induction entries as [|e entries IHentries]; [constructor|].
    cbn [flat_map]. cbn [List.map] in Hnd. apply NoDup_cons in Hnd as [He Hnd].
    apply Forall_cons in IH as [IHe IH].
    cbn [forallb] in Hsub. apply andb_true_iff in Hsub as [Hsube Hsub].
    apply NoDup_app. split; [|split].
    + unfold below_files.
      destruct (os.is_dir (snd e) && negb (String.eqb (fst e) ".git")); [|constructor].
      apply NoDup_map_inj; [by intros x y [= ->]|]. by apply IHe.
    + intros rel Hrel Hrest.
      apply below_files_head in Hrel as (rest & -> & _).
      apply list_elem_of_In, in_flat_map in Hrest as (e' & He' & Hrel').
      apply list_elem_of_In, below_files_head in Hrel' as (rest' & [= Hname _] & _).
      apply He. rewrite Hname. by apply list_elem_of_In, in_map.
    + by apply IHentries.
Qed.

End WalkOnce.

(** X13.  When both listing commands fail and the manual walk returns, it
    has listed no file twice, and every path that it has listed is relative
    and not empty (on a tree whose directories have entries of distinct
    names). *)
Theorem walk_lists_each_file_once (w : World) (base : Path) (files : list Path) :
  listing_failed (run_process w base ["rg"; "--files"; "-0"]) = true →
  listing_failed (run_process w base ["git"; "ls-files"; "-z"]) = true →
  names_distinct (tree_at w base) = true →
  list_files w base = Ok files →
  NoDup files ∧ Forall (λ p, absolute p = false ∧ parts p ≠ []) files.
Proof.
  intros Hrg Hgit Htree. rewrite list_files_walks by done.
  pose proof (walk_visible base (tree_at w base) (recursion_limit w) [] [] Htree) as Hwalk.
  rewrite app_nil_r in Hwalk. destruct base as [abs ps]. cbn [absolute parts] in Hwalk.
  rewrite Hwalk. destruct (within_limit _ _); [|done]. intros [= <-]. split.
  - apply NoDup_map_inj; [by intros x y [= ->]|]. by apply visible_files_NoDup.
  - apply Forall_forall. intros p Hp.
    apply list_elem_of_In, in_map_iff in Hp as (rel & <- & Hrel).
    split; [done|]. cbn [parts]. intros ->.
    by apply list_elem_of_In, visible_files_not_empty in Hrel.
Qed.

Lemma walk_lists_each_file_once_witness :
  NoDup (List.map (mkPath false)
           [ ["a.py"]; ["z.txt"]; ["src"; "b.cpp"]; ["src"; "d"; "e.md"] ])
  ∧ Forall (λ p, absolute p = false ∧ parts p ≠ [])
      (List.map (mkPath false)
         [ ["a.py"]; ["z.txt"]; ["src"; "b.cpp"]; ["src"; "d"; "e.md"] ]).
Proof.
  apply (walk_lists_each_file_once
           (with_limit (Scenario.world ExecNotFound (Completed 128 []) Scenario.tree []) 3)
           Scenario.repo); vm_compute; reflexivity.
Defined.

(** * Lines *)

(** X14.  As [wc -l] does, the counter counts the lines that end with a
    newline: a text of [n] lines, each followed by a newline byte, counts
    [n], and what follows the last newline, a last line without its
    newline, is not counted. *)
Theorem count_newlines_of_lines (w : World) (path : Path)
    (lines : list (list byte)) (tail : list byte) :
  Forall (λ line, newline ∉ line) lines →
  newline ∉ tail →
  open_rb w path = Ok (text_of_lines lines ++ tail)%list →
  count_newlines w path = Ok (Z.of_nat (List.length lines)).
Proof.
  intros Hlines Htail Hopen. rewrite (count_newlines_value w path _ Hopen).
  do 2 f_equal. rewrite count_occ_app.
  assert (Hnone : ∀ l : list byte, newline ∉ l → count_occ byte_eq_dec l newline = 0%nat).
  { intros l Hl. apply count_occ_not_In. intros Hin. by apply Hl, list_elem_of_In. }
  rewrite (Hnone tail Htail), Nat.add_0_r. clear Hopen.
  induction Hlines as [|line lines Hline _ IH]; [done|].
  unfold text_of_lines in *. cbn [flat_map List.length].
  by rewrite !count_occ_app, IH, (Hnone line Hline).
Qed.

Lemma count_newlines_of_lines_witness :
  count_newlines Scenario.four_files_world (Scenario.in_repo ["a.py"]) = Ok 3.
Proof.
  apply (count_newlines_of_lines Scenario.four_files_world
           (Scenario.in_repo ["a.py"]) [[x61]; [x61]; [x61]] []).
  - repeat (apply List.Forall_cons;
              [rewrite !not_elem_of_cons; repeat split;
               (discriminate || apply not_elem_of_nil)|]).
    apply List.Forall_nil.
  - apply not_elem_of_nil.
  - reflexivity.
Defined.

(** * What a run does not depend on *)

Section Independence.

Context (w : World) (args : Args) (base self_path : Path).

Abbreviation ind_step w0 a0 :=
  (λ (acc : result Totals.t) (rel_path : Path),
     totals ← acc; count_file w0 a0 base self_path totals rel_path).

(** Only the tallied files are opened. *)
Lemma foldl_step_open (open' : Path → result (list byte)) (files : list Path)
    (acc : result Totals.t) :
  Forall (λ p, tallied w args base self_path p = true →
               open' (PurePath.truediv base p) = open_rb w (PurePath.truediv base p))
         files →
  foldl (ind_step (with_open w open') args) acc files = foldl (ind_step w args) acc files.
Proof.
  intros Hfiles. revert acc. induction Hfiles as [|p files Hp _ IH]; intros acc; [done|].
  cbn [foldl]. rewrite IH. f_equal.
  destruct acc as [totals|e]; [|done]. cbn [mbind result_bind].
  assert (Hsame : file_checks (with_open w open') args base self_path p
                  = file_checks w args base self_path p) by reflexivity.
  destruct (file_checks w args base self_path p) as [[|]|e] eqn:Hc.
  - pose proof (proj2 (tallied_checks w args base self_path p) Hc) as Ht.
    pose proof (proj2 (tallied_checks (with_open w open') args base self_path p) Hsame)
      as Ht'.
    destruct (count_file_tallied w args base self_path totals p Ht) as (l1 & H1 & E1).
    destruct (count_file_tallied (with_open w open') args base self_path totals p Ht')
      as (l2 & H2 & E2).
    rewrite E1, E2. assert (l2 = l1) as -> by congruence.
    unfold count_newlines. cbn [with_open open_rb]. by rewrite (Hp Ht).
  - rewrite (count_file_skipped w args base self_path totals p Hc).
    by rewrite (count_file_skipped (with_open w open') args base self_path totals p Hsame).
  - rewrite (count_file_raises w args base self_path totals p e Hc).
    by rewrite (count_file_raises (with_open w open') args base self_path totals p e Hsame).
Qed.

(** Without the source file of the tool among the files, [--include-self]
    changes nothing. *)
Lemma foldl_step_include_self (files : list Path) (acc : result Totals.t) :
  Forall (λ q, ∃ r, resolve w (PurePath.truediv base q) = Ok r ∧ r ≠ self_path) files →
  foldl (ind_step w (mkArgs (root args) (code_only args) true)) acc files
  = foldl (ind_step w (mkArgs (root args) (code_only args) false)) acc files.
Proof.
  intros Hfiles. revert acc.
  induction Hfiles as [|q files (r & Hr & Hne) _ IH]; intros acc; [done|].
  cbn [foldl]. rewrite IH. f_equal.
  destruct acc as [totals|e]; [|done]. cbn [mbind result_bind].
  unfold count_file, is_excluded. cbn [include_self negb].
  destruct (language_for_path q) as [lang|e]; [|done]. cbn [mbind result_bind].
  destruct (lang_truthy lang); [|done].
  rewrite Hr. cbn [mbind result_bind]. by rewrite bool_decide_eq_false_2.
Qed.

End Independence.

(** X15.  Only the tallied files are opened: a run ends in the same way,
    with the same output, whatever opening the other files would give
    (files of no known language, the excluded source file of the tool,
    entries that are not regular files). *)
Theorem only_tallied_files_are_opened (w : World) (args : Args) (rt self_path : Path)
    (open' : Path → result (list byte)) (files : list Path) :
  resolve w (root args) = Ok rt →
  resolve w (script_file w) = Ok self_path →
  list_files w rt = Ok files →
  Forall (λ p, tallied w args rt self_path p = true →
               open' (PurePath.truediv rt p) = open_rb w (PurePath.truediv rt p)) files →
  main (with_open w open') args = main w args.
Proof.
  intros Hrt Hself Hlist Hfiles. unfold main.
  cbn [with_open resolve path_exists script_file]. rewrite Hrt, Hself.
  destruct (path_exists w rt) as [[|]|e]; [|done..].
  cbn [mbind result_bind].
  change (list_files (with_open w open')) with (list_files w). rewrite Hlist.
  cbn [mbind result_bind]. unfold count_files.
  by rewrite (foldl_step_open w args _ _ open' files (Ok []) Hfiles).
Qed.

Lemma only_tallied_files_are_opened_witness :
  main (with_open Scenario.deleted_readme_world (λ _, Ok [x0a; x0a]))
       (mkArgs Scenario.repo false false)
  = main Scenario.deleted_readme_world (mkArgs Scenario.repo false false).
Proof.
  apply (only_tallied_files_are_opened Scenario.deleted_readme_world
           (mkArgs Scenario.repo false false) Scenario.repo Scenario.script
           (λ _, Ok [x0a; x0a])
           [mkPath false ["README.md"]]).
  - reflexivity.
  - reflexivity.
  - reflexivity.
  - apply List.Forall_cons; [|apply List.Forall_nil]. intros H. discriminate H.
Defined.

(** X16.  When every listed file resolves, and none to the source file of
    the tool, the flag [--include-self] changes nothing: the run ends in the
    same way with it and without it. *)
Theorem include_self_without_self (w : World) (base rt self_path : Path) (code : bool)
    (files : list Path) :
  resolve w base = Ok rt →
  resolve w (script_file w) = Ok self_path →
  list_files w rt = Ok files →
  Forall (λ q, ∃ r, resolve w (PurePath.truediv rt q) = Ok r ∧ r ≠ self_path) files →
  main w (mkArgs base code true) = main w (mkArgs base code false).
Proof.
  intros Hrt Hself Hlist Hfiles. unfold main. cbn [root]. rewrite Hrt, Hself.
  destruct (path_exists w rt) as [[|]|e]; [|done..].
  cbn [mbind result_bind]. rewrite Hlist. cbn [mbind result_bind]. unfold count_files.
  pose proof (foldl_step_include_self w (mkArgs base code true) _ _ files (Ok []) Hfiles)
    as Hsame.
  cbn [root code_only] in Hsame. rewrite Hsame.
  destruct (foldl _ _ files) as [totals|e]; [|done].
  destruct (Totals.truthy totals); [|done]. done.
Qed.

Lemma include_self_without_self_witness :
  main Scenario.four_files_world (mkArgs Scenario.repo false true)
  = main Scenario.four_files_world (mkArgs Scenario.repo false false).
Proof.
  apply (include_self_without_self Scenario.four_files_world Scenario.repo
           Scenario.repo Scenario.script false
           [mkPath false ["a.py"]; mkPath false ["b.cpp"];
            mkPath false ["README.md"]; mkPath false ["notes.txt"]]).
  - reflexivity.
  - reflexivity.
  - reflexivity.
  - repeat (apply List.Forall_cons;
              [eexists; split; [reflexivity|discriminate]|]).
    apply List.Forall_nil.
Defined.

(** * The order of the listing *)

Section ListingOrder.

Lemma filter_perm {A : Type} (f : A → bool) (l l' : list A) :
  l ≡ₚ l' → List.filter f l ≡ₚ List.filter f l'.
Proof.
  induction 1 as [|x l l' _ IH|x y l|l l' l'' _ IH1 _ IH2]; simpl.
  - done.
  - destruct (f x); [by constructor|done].
  - destruct (f x), (f y); try done. apply Permutation_swap.
  - by etransitivity.
Qed.

Lemma existsb_perm {A : Type} (f : A → bool) (l l' : list A) :
  l ≡ₚ l' → existsb f l = existsb f l'.
Proof.
  induction 1 as [|x l l' _ IH|x y l|l l' l'' _ IH1 _ IH2]; simpl.
  - done.
  - by rewrite IH.
  - by destruct (f x), (f y).
  - congruence.
Qed.

Lemma forallb_perm {A : Type} (f : A → bool) (l l' : list A) :
  l ≡ₚ l' → forallb f l = forallb f l'.
Proof.
  induction 1 as [|x l l' _ IH|x y l|l l' l'' _ IH1 _ IH2]; simpl.
  - done.
  - by rewrite IH.
  - by destruct (f x), (f y).
  - congruence.
Qed.

Lemma lines_for_perm (lang : string) (ts ts' : list (string * Z)) :
  ts ≡ₚ ts' → lines_for lang ts = lines_for lang ts'.
Proof. intros H. unfold lines_for. by apply sum_perm, filter_perm. Qed.

Lemma assoc_elem (l : list (string * Z)) (k : string) (v : Z) :
  NoDup (List.map fst l) → (k, v) ∈ l ↔ os.assoc k l = Some v.
Proof.
  induction l as [|[k' v'] l IH]; simpl.
  - intros _. split; [by intros ?%elem_of_nil|done].
  - intros [Hk' Hl]%NoDup_cons. rewrite elem_of_cons, (IH Hl).
    destruct (String.eqb k' k) eqn:E.
    + apply String.eqb_eq in E. subst k'. split.
      * intros [[= ->]|Hassoc]; [done|]. exfalso. apply Hk'.
        apply (IH Hl) in Hassoc.
        apply list_elem_of_In, in_map_iff. exists (k, v). split; [done|].
        by apply list_elem_of_In.
      * intros [= ->]. by left.
    + apply String.eqb_neq in E. split; [|by right].
      intros [[= -> ->]|?]; [done|done].
Qed.

(** Two tables of distinct keys with the same values hold the same
    items. *)
Lemma assoc_ext_perm (l l' : list (string * Z)) :
  NoDup (List.map fst l) → NoDup (List.map fst l') →
  (∀ k, os.assoc k l = os.assoc k l') → l ≡ₚ l'.
Proof.
  intros Hl Hl' Hext.
  assert (Hnd : ∀ t : list (string * Z), NoDup (List.map fst t) → NoDup t).
  { intros t Ht. induction t as [|x t IH]; [constructor|].
    simpl in Ht. apply NoDup_cons in Ht as [Hx Ht]. apply NoDup_cons. split; [|by apply IH].
    intros Hin. apply Hx. by apply list_elem_of_In, in_map, list_elem_of_In. }
  apply NoDup_Permutation; [by apply Hnd|by apply Hnd|].
  intros [k v]. by rewrite !assoc_elem, Hext.
Qed.

End ListingOrder.

(** X17.  The order of the listing decides the order of rows of equal
    count and nothing else: when the loop over a listing raises nothing, the
    loop over the same files in any other order raises nothing either and
    accumulates the same total for every language, so that the two reports
    hold the same rows and the same [TOTAL]. *)
Theorem listing_order_irrelevant (w : World) (args : Args) (base self_path : Path)
    (files files' : list Path) (totals : Totals.t) :
  files ≡ₚ files' →
  count_files w args base self_path files = Ok totals →
  ∃ totals' : Totals.t,
    count_files w args base self_path files' = Ok totals'
    ∧ totals' ≡ₚ totals
    ∧ sorted_desc (selected_items args totals') ≡ₚ sorted_desc (selected_items args totals)
    ∧ sum_lines (sorted_desc (selected_items args totals'))
      = sum_lines (sorted_desc (selected_items args totals)).
Proof.
  intros Hperm Hcount.
  pose proof (foldl_step_ok w args base self_path files [] totals Hcount) as Hok.
  rewrite (forallb_perm _ _ _ Hperm) in Hok.
  destruct (foldl_step_passes w args base self_path files' [] Hok) as [totals' Hcount'].
  exists totals'. split; [exact Hcount'|].
  assert (Htot : totals' ≡ₚ totals).
  { apply assoc_ext_perm.
    - rewrite (totals_keys_eq w args base self_path files' totals' Hcount').
      apply first_seen_NoDup.
    - rewrite (totals_keys_eq w args base self_path files totals Hcount).
      apply first_seen_NoDup.
    - intros k.
      rewrite (foldl_step_tallies w args base self_path files' [] totals' Hcount').
      rewrite (foldl_step_tallies w args base self_path files [] totals Hcount).
      rewrite !assoc_foldl_add.
      assert (Hts : tallies w args base self_path files'
                    ≡ₚ tallies w args base self_path files).
      { unfold tallies. by rewrite Hperm. }
      by rewrite (existsb_perm _ _ _ Hts), (lines_for_perm k _ _ Hts). }
  assert (Hsel : selected_items args totals' ≡ₚ selected_items args totals).
  { unfold selected_items. destruct (code_only args); [by apply filter_perm|done]. }
  split; [exact Htot|]. split.
  - by rewrite !sorted_desc_perm.
  - rewrite !sum_lines_sum. apply sum_perm. by rewrite !sorted_desc_perm.
Qed.

Lemma listing_order_irrelevant_witness :
  ∃ totals' : Totals.t,
    count_files MoreScenarios.two_py_world (mkArgs Scenario.repo false false)
      Scenario.repo Scenario.script
      [mkPath false ["README.md"]; mkPath false ["pkg"; "b.py"]; mkPath false ["a.py"]]
    = Ok totals'
    ∧ totals' ≡ₚ [("Python", 7); ("Markdown", 9)]
    ∧ sorted_desc (selected_items (mkArgs Scenario.repo false false) totals')
      ≡ₚ sorted_desc (selected_items (mkArgs Scenario.repo false false)
                        [("Python", 7); ("Markdown", 9)])
    ∧ sum_lines (sorted_desc (selected_items (mkArgs Scenario.repo false false) totals'))
      = sum_lines (sorted_desc (selected_items (mkArgs Scenario.repo false false)
                                  [("Python", 7); ("Markdown", 9)])).
Proof.
  apply (listing_order_irrelevant MoreScenarios.two_py_world
           (mkArgs Scenario.repo false false) Scenario.repo Scenario.script
           MoreScenarios.two_py_files).
  - unfold MoreScenarios.two_py_files.
    etransitivity; [apply Permutation_swap|]. apply perm_skip, Permutation_swap.
  - vm_compute. reflexivity.
Defined.

(** * The source file of the tool *)

Section OwnSource.

Lemma lines_for_app (k : string) (a b : list (string * Z)) :
  lines_for k (a ++ b) = lines_for k a + lines_for k b.
Proof.
  unfold lines_for. rewrite List.filter_app, List.map_app.
  induction (List.map snd (List.filter _ a)) as [|x l IH]; simpl; lia.
Qed.

Lemma lines_for_cons (k lang : string) (n : Z) (ts : list (string * Z)) :
  lines_for k ((lang, n) :: ts) = (if String.eqb lang k then n else 0) + lines_for k ts.
Proof. unfold lines_for. cbn [List.filter fst]. by destruct (String.eqb lang k). Qed.

(** The total of a language is the sum of what the tallied files bring to
    it, [0] when they bring nothing. *)
Lemma default_assoc_foldl_add (k : string) (ts : list (string * Z)) :
  default 0 (os.assoc k (foldl (λ t x, Totals.add (fst x) (snd x) t) [] ts))
  = lines_for k ts.
Proof.
  rewrite assoc_foldl_add.
  destruct (existsb (λ x, String.eqb (fst x) k) ts) eqn:Hex; [simpl; lia|].
  unfold lines_for. rewrite filter_none; [done|].
  intros x Hx. destruct (String.eqb (fst x) k) eqn:Ex; [|done].
  assert (existsb (λ x, String.eqb (fst x) k) ts = true); [|congruence].
  apply existsb_exists. by exists x.
Qed.

Lemma tallies_app (w : World) (args : Args) (base self_path : Path) (a b : list Path) :
  tallies w args base self_path (a ++ b)
  = (tallies w args base self_path a ++ tallies w args base self_path b)%list.
Proof.
  unfold tallies. induction a as [|p a IH]; [done|].
  cbn [app omap list_omap]. destruct (tally_of w args base self_path p); [|exact IH].
  cbn [app]. f_equal. exact IH.
Qed.

Lemma forallb_insert {A : Type} (f : A → bool) (a b : list A) (x : A) :
  forallb f (a ++ x :: b) = (f x && forallb f (a ++ b))%bool.
Proof.
  rewrite !forallb_app. cbn [forallb].
  destruct (forallb f a), (f x), (forallb f b); done.
Qed.

End OwnSource.

(** C6.  Without [--include-self], a listed file whose resolved path is
    the resolved path of the source file of the tool adds nothing to the
    totals: they are the totals of the listing without it.  The test is the
    equality of the resolved paths: a file of another resolved path, whatever
    its name, is counted as it is with the flag.  With [--include-self] the
    file is not resolved and the resolved path of the tool plays no part:
    the file is counted like any other.  When it is classified, regular and
    readable, its newlines go to its language, so that the totals of the
    listing with it are the totals of the listing without it with the
    newlines of the file added to its language, and nothing else changed. *)
Theorem own_source_excluded (w : World) (args : Args) (base self_path : Path)
    (before after : list Path) (p : Path) :
  resolve w (PurePath.truediv base p) = Ok self_path →
  (include_self args = false →
     count_files w args base self_path (before ++ p :: after)%list
     = count_files w args base self_path (before ++ after)%list)
  ∧ (∀ (q : Path) (totals : Totals.t) (r : Path),
       resolve w (PurePath.truediv base q) = Ok r →
       r ≠ self_path →
       count_file w args base self_path totals q
       = count_file w (mkArgs (root args) (code_only args) true)
           base self_path totals q)
  ∧ (include_self args = true →
       (∀ (totals : Totals.t) (other : Path),
          count_file w args base self_path totals p
          = count_file w args base other totals p)
       ∧ (∀ (totals : Totals.t) (lang : string) (content : list byte),
            language_for_path p = Ok (Some lang) →
            is_file w (PurePath.truediv base p) = Ok true →
            open_rb w (PurePath.truediv base p) = Ok content →
            count_file w args base self_path totals p
            = Ok (Totals.add lang (Z.of_nat (count_occ byte_eq_dec content newline))
                    totals))
       ∧ (∀ (totals : Totals.t) (lang : string) (content : list byte),
            language_for_path p = Ok (Some lang) →
            is_file w (PurePath.truediv base p) = Ok true →
            open_rb w (PurePath.truediv base p) = Ok content →
            count_files w args base self_path (before ++ after)%list = Ok totals →
            ∃ totals' : Totals.t,
              count_files w args base self_path (before ++ p :: after)%list = Ok totals'
              ∧ os.assoc lang totals'
                = Some (default 0 (os.assoc lang totals)
                        + Z.of_nat (count_occ byte_eq_dec content newline))
              ∧ ∀ other : string,
                  other ≠ lang → os.assoc other totals' = os.assoc other totals)).
Proof.
  intros Hself. split; [|split].
  - intros Hflag. apply count_files_skip.
    unfold file_checks. destruct (language_for_path_total p) as [lang ->].
    cbn [mbind result_bind]. destruct (lang_truthy lang); [|done].
    unfold is_excluded. rewrite Hflag, Hself. cbn [negb mbind result_bind].
    by rewrite bool_decide_eq_true_2.
  - intros q totals r Hq Hne. unfold count_file, is_excluded. cbn [include_self negb].
    destruct (language_for_path q) as [lang|e]; cbn [mbind result_bind]; [|done].
    destruct (lang_truthy lang); [|done].
    destruct (include_self args); cbn [negb]; [done|].
    rewrite Hq. cbn [mbind result_bind]. by rewrite bool_decide_eq_false_2.
  - intros Hflag.
    assert (Hchecks : ∀ lang, language_for_path p = Ok (Some lang) →
              is_file w (PurePath.truediv base p) = Ok true →
              file_checks w args base self_path p = Ok true).
    { intros lang Hlang Hfile. unfold file_checks, is_excluded.
      rewrite Hlang, Hflag. cbn [mbind result_bind negb].
      destruct (language_in_vocabulary p lang Hlang) as [_ Hne].
      destruct lang as [|c lang]; [done|]. cbn [lang_truthy]. exact Hfile. }
    assert (Hone : ∀ totals lang content,
              language_for_path p = Ok (Some lang) →
              is_file w (PurePath.truediv base p) = Ok true →
              open_rb w (PurePath.truediv base p) = Ok content →
              count_file w args base self_path totals p
              = Ok (Totals.add lang (Z.of_nat (count_occ byte_eq_dec content newline))
                      totals)).
    { intros totals lang content Hlang Hfile Hopen.
      pose proof (proj2 (tallied_checks w args base self_path p)
                    (Hchecks lang Hlang Hfile)) as Ht.
      destruct (count_file_tallied w args base self_path totals p Ht) as (l & Hl & ->).
      assert (l = lang) as -> by congruence.
      by rewrite (count_newlines_value w _ content Hopen). }
    split; [|split; [exact Hone|]].
    + intros totals other. unfold count_file, is_excluded. by rewrite Hflag.
    + intros totals lang content Hlang Hfile Hopen Hcount.
      pose proof (Hchecks lang Hlang Hfile) as Hc.
      pose proof (proj2 (tallied_checks w args base self_path p) Hc) as Ht.
      pose proof (foldl_step_ok w args base self_path _ [] totals Hcount) as Hok.
      assert (Hok' : forallb (passes w args base self_path) (before ++ p :: after) = true).
      { rewrite forallb_insert, Hok, andb_true_r. unfold passes, readable.
        by rewrite Hc, Hopen. }
      destruct (foldl_step_passes w args base self_path _ [] Hok') as [totals' Hcount'].
      exists totals'. split; [exact Hcount'|].
      assert (Htally : tally_of w args base self_path p
                       = Some (lang, Z.of_nat (count_occ byte_eq_dec content newline))).
      { unfold tally_of. by rewrite Ht, Hlang, (count_newlines_value w _ content Hopen). }
      assert (Hts : tallies w args base self_path (before ++ p :: after)
                    = (tallies w args base self_path before
                       ++ (lang, Z.of_nat (count_occ byte_eq_dec content newline))
                          :: tallies w args base self_path after)%list).
      { rewrite tallies_app. f_equal. unfold tallies at 1. cbn [omap list_omap].
        by rewrite Htally. }
      rewrite (foldl_step_tallies w args base self_path _ [] totals' Hcount').
      rewrite (foldl_step_tallies w args base self_path _ [] totals Hcount).
      rewrite Hts, tallies_app. split.
      * rewrite default_assoc_foldl_add, assoc_foldl_add.
        rewrite existsb_app. cbn [existsb fst]. rewrite String.eqb_refl, orb_true_r.
        cbn [os.assoc default from_option id]. f_equal.
        rewrite !lines_for_app, lines_for_cons, String.eqb_refl. lia.
      * intros other Hother. rewrite !assoc_foldl_add, !existsb_app.
        cbn [existsb fst]. apply String.eqb_neq in Hother.
        rewrite (String.eqb_sym lang other), Hother. cbn [orb].
        by rewrite !lines_for_app, lines_for_cons, (String.eqb_sym lang other), Hother.
Qed.

Lemma own_source_excluded_witness :
  count_files RaisingScenarios.with_self_world (mkArgs Scenario.repo false false)
    Scenario.repo Scenario.script
    ([mkPath false ["a.py"]] ++ mkPath false ["tools"; "loc_by_language.py"]
       :: [mkPath false ["b.cpp"]])%list
  = count_files RaisingScenarios.with_self_world (mkArgs Scenario.repo false false)
      Scenario.repo Scenario.script
      ([mkPath false ["a.py"]] ++ [mkPath false ["b.cpp"]])%list
  ∧ ∃ totals' : Totals.t,
      count_files RaisingScenarios.with_self_world (mkArgs Scenario.repo false true)
        Scenario.repo Scenario.script
        ([mkPath false ["a.py"]] ++ mkPath false ["tools"; "loc_by_language.py"]
           :: [mkPath false ["b.cpp"]])%list
      = Ok totals'
      ∧ os.assoc "Python" totals'
        = Some (default 0 (os.assoc "Python" [("Python", 3); ("C++", 5)])
                + Z.of_nat (count_occ byte_eq_dec (Scenario.lines 170) newline))
      ∧ ∀ other : string,
          other ≠ "Python" →
          os.assoc other totals' = os.assoc other [("Python", 3); ("C++", 5)].
Proof.
  split.
  - apply (proj1 (own_source_excluded RaisingScenarios.with_self_world
                    (mkArgs Scenario.repo false false) Scenario.repo Scenario.script
                    [mkPath false ["a.py"]] [mkPath false ["b.cpp"]]
                    (mkPath false ["tools"; "loc_by_language.py"]) eq_refl)).
    reflexivity.
  - apply (proj2 (proj2 (proj2 (proj2
             (own_source_excluded RaisingScenarios.with_self_world
                (mkArgs Scenario.repo false true) Scenario.repo Scenario.script
                [mkPath false ["a.py"]] [mkPath false ["b.cpp"]]
                (mkPath false ["tools"; "loc_by_language.py"]) eq_refl)) eq_refl))
             [("Python", 3); ("C++", 5)] "Python" (Scenario.lines 170)).
    + reflexivity.
    + reflexivity.
    + reflexivity.
    + vm_compute. reflexivity.
Defined.
